(** * Kanban board: the board model of [KanbanBoard.tsx] and its two
    persistence variants (local snapshot, remote table).

    The development follows the component: the data model ([Task],
    [ColumnId], [BoardState]), the JavaScript array primitives the code
    calls ([findIndex], [splice], spread), the state updaters handed to
    [setBoard], the event handlers of the local and of the remote variant,
    and then the properties of the board. *)

From stdpp Require Import base list numbers strings.
From Stdlib Require Import ZArith Lia.

Local Open Scope Z_scope.

(** ** Strings

    A JavaScript string is a sequence of UTF-16 code units. *)

Definition JSString := list N.

(** Literals are written as Rocq strings (UTF-8 bytes) and decoded. *)

Definition cont (b : N) : N := N.land b 63.

Fixpoint utf8_points (bs : list N) : list N :=
  match bs with
  | [] => []
  | b :: r =>
    if (b <? 128)%N then b :: utf8_points r
    else if (b <? 224)%N then
      match r with
      | c1 :: r' => (N.shiftl (N.land b 31) 6 + cont c1)%N :: utf8_points r'
      | _ => []
      end
    else if (b <? 240)%N then
      match r with
      | c1 :: c2 :: r' =>
        (N.shiftl (N.land b 15) 12 + N.shiftl (cont c1) 6 + cont c2)%N
          :: utf8_points r'
      | _ => []
      end
    else
      match r with
      | c1 :: c2 :: c3 :: r' =>
        (N.shiftl (N.land b 7) 18 + N.shiftl (cont c1) 12
         + N.shiftl (cont c2) 6 + cont c3)%N :: utf8_points r'
      | _ => []
      end
  end.

Definition utf16_units (p : N) : list N :=
  if (p <? 65536)%N then [p]
  else [(55296 + N.shiftr (p - 65536) 10)%N; (56320 + N.land (p - 65536) 1023)%N].

Fixpoint bytes_of (s : string) : list N :=
  match s with
  | EmptyString => []
  | String a r => Ascii.N_of_ascii a :: bytes_of r
  end.

Definition js (s : string) : JSString :=
  utf8_points (bytes_of s) ≫= utf16_units.

(** [String.prototype.trim]: strips WhiteSpace and LineTerminator code
    units (ECMA-262, 22.1.3.32 and tables 35, 36) from both ends. *)

Definition isWhiteSpace (c : N) : bool :=
  bool_decide (c ∈ [9; 10; 11; 12; 13; 32; 160; 5760; 8232; 8233; 8239; 8287;
                    12288; 65279]%N)
  || ((8192 <=? c)%N && (c <=? 8202)%N).

Fixpoint trimStart (s : JSString) : JSString :=
  match s with
  | [] => []
  | c :: r => if isWhiteSpace c then trimStart r else s
  end.

Definition trimEnd (s : JSString) : JSString := reverse (trimStart (reverse s)).

Definition trim (s : JSString) : JSString := trimEnd (trimStart s).

(** ** Data model *)

(** [createdAt: number]: [Date.now()] yields integer milliseconds,
    [Date.parse] yields integer milliseconds or NaN. *)
Inductive Timestamp := Ms (ms : Z) | NaN.

Record Task := { id : JSString; title : JSString; createdAt : Timestamp }.

Inductive ColumnId := Todo | InProgress | Done.

(** The string each column id is at run time. *)
Definition ColumnId_name (c : ColumnId) : JSString :=
  match c with
  | Todo => js "todo"
  | InProgress => js "in_progress"
  | Done => js "done"
  end.

(** [BoardState = Record<ColumnId, Task[]>] *)
Record BoardState := {
  todo : list Task;
  in_progress : list Task;
  done : list Task
}.

#[global] Instance Timestamp_eq_dec : EqDecision Timestamp.
Proof. solve_decision. Defined.
#[global] Instance Task_eq_dec : EqDecision Task.
Proof. solve_decision. Defined.
#[global] Instance ColumnId_eq_dec : EqDecision ColumnId.
Proof. solve_decision. Defined.
#[global] Instance BoardState_eq_dec : EqDecision BoardState.
Proof. solve_decision. Defined.

(** [prev[c]] for a column id [c] *)
Definition col (c : ColumnId) (b : BoardState) : list Task :=
  match c with
  | Todo => todo b
  | InProgress => in_progress b
  | Done => done b
  end.

(** [{ ...prev, [c]: l }] *)
Definition with_col (c : ColumnId) (l : list Task) (b : BoardState) : BoardState :=
  match c with
  | Todo => {| todo := l; in_progress := in_progress b; done := done b |}
  | InProgress => {| todo := todo b; in_progress := l; done := done b |}
  | Done => {| todo := todo b; in_progress := in_progress b; done := l |}
  end.

(** ** Run-time values

    TypeScript types are erased: what [JSON.parse] returns and what the
    [as] casts of [onDropColumn] pass on are arbitrary values.  A number
    carries only whether it is non-zero, which is all the handlers observe
    of one. *)

#[local] Set Warnings "-register-all".
Inductive JSValue :=
| JUndefined
| JNull
| JBool (b : bool)
| JNum (nonzero : bool)
| JStr (s : JSString)
| JArr (items : list JSValue)
| JObj (props : list (JSString * JSValue)).  (* own properties, by name *)

(** ToBoolean *)
Definition truthy (v : JSValue) : bool :=
  match v with
  | JUndefined | JNull => false
  | JBool b => b
  | JNum nonzero => nonzero
  | JStr s => negb (bool_decide (s = []))
  | JArr _ | JObj _ => true
  end.

Fixpoint assoc (k : JSString) (props : list (JSString * JSValue)) : JSValue :=
  match props with
  | [] => JUndefined
  | (k', v) :: r => if bool_decide (k = k') then v else assoc k r
  end.

(** [v?.k] for a name [k] that no built-in prototype defines (here
    [taskId] and [from]): an own property of an object, otherwise
    [undefined]. *)
Definition opt_field (k : JSString) (v : JSValue) : JSValue :=
  match v with
  | JObj props => assoc k props
  | _ => JUndefined
  end.

Definition ColumnId_of_name (s : JSString) : option ColumnId :=
  if bool_decide (s = ColumnId_name Todo) then Some Todo
  else if bool_decide (s = ColumnId_name InProgress) then Some InProgress
  else if bool_decide (s = ColumnId_name Done) then Some Done
  else None.

(** The column that [prev[k]] reads for a value [k] used as a property
    key.  The key is ToString of [k]: a string is itself, a one-element
    array is its element's string (the empty string for [null] and
    [undefined]), longer arrays contain a comma, and the texts of the
    other values ("null", "true", "[object Object]", a number's digits)
    name no column. *)
Fixpoint key_column (k : JSValue) : option ColumnId :=
  match k with
  | JStr s => ColumnId_of_name s
  | JArr [x] => key_column x
  | _ => None
  end.

(** [prev[k]]: the array of a column, or [None] for a value that is not an
    array ([undefined], or a member inherited from [Object.prototype]). *)
Definition board_get (prev : BoardState) (k : JSValue) : option (list Task) :=
  (λ c, col c prev) <$> key_column k.

(** [{ ...prev, [k]: l }] *)
Definition board_set (k : JSValue) (l : list Task) (prev : BoardState) : BoardState :=
  match key_column k with
  | Some c => with_col c l prev
  | None => prev
  end.

(** [v === s] for a string [s] *)
Definition strict_eq_str (v : JSValue) (s : JSString) : bool :=
  match v with
  | JStr s' => bool_decide (s' = s)
  | _ => false
  end.

(** ** Array primitives *)

(** [Array.prototype.findIndex] *)
Fixpoint findIndex {A} (p : A → bool) (l : list A) : Z :=
  match l with
  | [] => -1
  | x :: r =>
    if p x then 0
    else let j := findIndex p r in if j =? -1 then -1 else j + 1
  end.

(** [Array.prototype.splice(start, deleteCount, ...items)] on the array
    contents [l]: the removed elements and the new contents. *)
Definition splice {A} (start deleteCount : Z) (items : list A) (l : list A)
  : list A * list A :=
  let len := Z.of_nat (length l) in
  let actualStart :=
    Z.to_nat (if start <? 0 then Z.max (len + start) 0 else Z.min start len) in
  let actualDeleteCount :=
    Z.to_nat (Z.min (Z.max deleteCount 0) (len - Z.of_nat actualStart)) in
  (take actualDeleteCount (drop actualStart l),
   take actualStart l ++ items ++ drop (actualStart + actualDeleteCount) l).

(** ** Outcomes and the store of array objects

    [source] and [target] in [moveTask] are references to arrays that are
    mutated in place, and may be one and the same array. *)

Inductive Exn :=
| TypeError       (* thrown by the spread of a value that is not iterable *)
| UndefinedTask.  (* a destructured element is [undefined], not a Task *)

Inductive Outcome (A : Type) :=
| Ok (a : A)
| Throw (e : Exn).
Arguments Ok {A} a.
Arguments Throw {A} e.

Definition Ref := nat.
Definition Heap := list (list Task).
Definition M (A : Type) := Heap → Outcome (A * Heap).

Definition ret {A} (a : A) : M A := λ h, Ok (a, h).
Definition throw {A} (e : Exn) : M A := λ _, Throw e.
Definition bind {A B} (m : M A) (k : A → M B) : M B :=
  λ h, match m h with
       | Ok (a, h') => k a h'
       | Throw e => Throw e
       end.

Notation "'let*' x ':=' m 'in' k" := (bind m (λ x, k))
  (at level 10, x name, m at level 100, k at level 200).

(** [[...v]]: a fresh array with the elements of [v]; a value that is not
    iterable throws. *)
Definition spread (v : option (list Task)) : M Ref :=
  match v with
  | Some l => λ h, Ok (length h, h ++ [l])
  | None => throw TypeError
  end.

Definition read (r : Ref) : M (list Task) :=
  λ h, Ok (default [] (h !! r), h).

Definition write (r : Ref) (l : list Task) : M unit :=
  λ h, Ok (tt, <[r:=l]> h).

(** [r.findIndex(p)] *)
Definition arr_findIndex (p : Task → bool) (r : Ref) : M Z :=
  let* l := read r in ret (findIndex p l).

(** [r.length] *)
Definition arr_length (r : Ref) : M Z :=
  let* l := read r in ret (Z.of_nat (length l)).

(** [r.splice(start, deleteCount, ...items)]: updates the array in place
    and returns the removed elements. *)
Definition arr_splice (r : Ref) (start deleteCount : Z) (items : list Task)
  : M (list Task) :=
  let* l := read r in
  let '(removed, l') := splice start deleteCount items l in
  let* _ := write r l' in
  ret removed.

(** [const [x] = a] *)
Definition first (a : list Task) : M Task :=
  match a with
  | x :: _ => ret x
  | [] => throw UndefinedTask
  end.

(** Runs a computation that starts with no array allocated. *)
Definition run {A} (m : M A) : Outcome A :=
  match m [] with
  | Ok (a, _) => Ok a
  | Throw e => Throw e
  end.

(** ** The state updaters of the board

    [setBoard(f)] replaces the board by [f board]; the functions below are
    the [f] of each operation. *)

(** [uid()] draws the id and [Date.now()] reads the clock: both are
    inputs of the updater. *)
Definition addTask_updater (uid : JSString) (now : Z) (col_ : ColumnId)
  (title_ : JSString) (prev : BoardState) : BoardState :=
  with_col col_
    ({| id := uid; title := trim title_; createdAt := Ms now |} :: col col_ prev)
    prev.

Definition removeTask_updater (col_ : ColumnId) (id_ : JSString)
  (prev : BoardState) : BoardState :=
  with_col col_ (filter (λ t, id t ≠ id_) (col col_ prev)) prev.

(** The arguments [from] and [id] are taken as run-time values: the drop
    handler passes whatever the payload holds.  [index] is an array
    position, an integer. *)
Definition moveTask_updater (from : JSValue) (to : ColumnId) (id_ : JSValue)
  (index : option Z) (prev : BoardState) : Outcome BoardState :=
  run (
    let same := strict_eq_str from (ColumnId_name to) in
    let* source := spread (board_get prev from) in
    let* target := if same then ret source else spread (Some (col to prev)) in
    let* i := arr_findIndex (λ t, strict_eq_str id_ (id t)) source in
    if i =? -1 then ret prev
    else
      let* removed := arr_splice source i 1 [] in
      let* task := first removed in
      let* len := arr_length target in
      let insertAt :=
        match index with
        | Some n => Z.max 0 (Z.min n len)
        | None => len
        end in
      let* _ := arr_splice target insertAt 0 [task] in
      let* src := read source in
      let* tgt := read target in
      ret (with_col to tgt (board_set from (if same then tgt else src) prev))
  ).

(** [addTask], [removeTask] and [moveTask] called at their declared
    parameter types, as transformations of the board; both variants apply
    these to the board they hold. *)

Definition add (uid : JSString) (now : Z) (col_ : ColumnId) (title_ : JSString)
  (prev : BoardState) : BoardState :=
  if negb (truthy (JStr (trim title_))) then prev
  else addTask_updater uid now col_ title_ prev.

Definition remove (col_ : ColumnId) (id_ : JSString) (prev : BoardState)
  : BoardState :=
  removeTask_updater col_ id_ prev.

Definition move (from to : ColumnId) (id_ : JSString) (index : option Z)
  (prev : BoardState) : Outcome BoardState :=
  moveTask_updater (JStr (ColumnId_name from)) to (JStr id_) index prev.

(** ** Properties of a board *)

Definition all_tasks (b : BoardState) : list Task :=
  todo b ++ in_progress b ++ done b.

Definition task_count (b : BoardState) : nat :=
  (length (todo b) + length (in_progress b) + length (done b))%nat.

(** No task id appears in two stages or twice in one stage. *)
Definition unique_ids (b : BoardState) : Prop := NoDup (id <$> all_tasks b).

(** [x] placed at position [k] of [l] *)
Definition insert_at {A} (k : nat) (x : A) (l : list A) : list A :=
  take k l ++ x :: drop k l.

(** An index clamped to [0, len]; the end when there is none. *)
Definition clamp_index (index : option Z) (len : nat) : nat :=
  match index with
  | Some n => Z.to_nat (Z.max 0 (Z.min n (Z.of_nat len)))
  | None => len
  end.

(** The board after the task [t] at position [i] of column [from] went to
    column [to]: the list the task is put into is column [to], which is
    column [from] without the task when the two are the same. *)
Definition moved (from to : ColumnId) (i : nat) (t : Task) (index : option Z)
  (b : BoardState) : BoardState :=
  let rest := delete i (col from b) in
  let target := if bool_decide (from = to) then rest else col to b in
  let placed := insert_at (clamp_index index (length target)) t target in
  with_col to placed
    (with_col from (if bool_decide (from = to) then placed else rest) b).

(** ** The local variant (snapshot in [localStorage])

    The text of the quick-add inputs and the save effect do not act on the
    board and are left out. *)

Module Local.

(** [initialData]; the two ids and the two clock readings are drawn when
    the module is loaded. *)
Definition initialData (uid1 uid2 : JSString) (now1 now2 : Z) : BoardState :=
  {| todo := [ {| id := uid1; title := js "Спробувати нову дошку";
                  createdAt := Ms now1 |};
               {| id := uid2; title := js "Додати перше завдання";
                  createdAt := Ms now2 |} ];
     in_progress := [];
     done := [] |}.

(** What [localStorage.getItem(STORAGE_KEY)] does. *)
Inductive StorageRead :=
| ReadThrows
| ReadNull
| ReadString (raw : JSString).

(** The value held by [useState<BoardState>]: [setData(JSON.parse(raw))]
    stores the parsed value as it is. *)
Inductive BoardData :=
| Board (b : BoardState)
| Parsed (v : JSValue).

Section Host.
(** [JSON.parse]; [None] when it throws. *)
Variable JSON_parse : JSString → option JSValue.

(** The load effect of [useLocalBoard], run once on the data [data]. *)
Definition load (stored : StorageRead) (data : BoardData) : BoardData :=
  match stored with
  | ReadThrows => data
  | ReadNull => data
  | ReadString raw =>
    if truthy (JStr raw) then
      match JSON_parse raw with
      | Some v => Parsed v
      | None => data
      end
    else data
  end.

(** [useLocalBoard(initial)] after the load effect. *)
Definition useLocalBoard (initial : BoardState) (stored : StorageRead)
  : BoardData :=
  load stored (Board initial).

Definition addTask := add.
Definition removeTask := remove.

(** [moveTask] hands its updater to [setBoard]. React runs the updater
    when it processes the update, after the caller has returned: an
    exception of the updater is not raised inside the caller, and it
    fails the render of the board. *)
Definition moveTask (from : JSValue) (to : ColumnId) (id_ : JSValue)
  (index : option Z) (prev : BoardState) : Outcome BoardState :=
  moveTask_updater from to id_ index prev.

(** [onDropColumn(e, to)] where [text] is
    [e.dataTransfer.getData("text/plain")]. *)
Definition onDropColumn (text : JSString) (to : ColumnId) (prev : BoardState)
  : Outcome BoardState :=
  match JSON_parse text with
  | None => Ok prev
  | Some payload =>
    if negb (truthy (opt_field (js "taskId") payload))
       || negb (truthy (opt_field (js "from") payload))
    then Ok prev
    else moveTask (opt_field (js "from") payload) to
                  (opt_field (js "taskId") payload) None prev
  end.
End Host.

End Local.

(** ** The remote variant (table [tasks] behind [supabase]) *)

Module Remote.

Record TaskRow := {
  row_id : JSString;
  row_title : JSString;
  status : ColumnId;
  created_at : JSString
}.

(** The requests the component sends to the store. *)
Inductive StoreOp :=
| Insert (row : TaskRow)
| DeleteEqId (id_ : JSString)
| UpdateStatusEqId (status_ : ColumnId) (id_ : JSValue).

Definition initialData : BoardState :=
  {| todo := []; in_progress := []; done := [] |}.

Section Host.
Variable JSON_parse : JSString → option JSValue.
(** [Date.parse] *)
Variable Date_parse : JSString → Timestamp.
(** [new Date(ms).toISOString()] *)
Variable toISOString : Z → JSString.

(** The task built from a row [t]. *)
Definition row_task (t : TaskRow) : Task :=
  {| id := row_id t; title := row_title t;
     createdAt := Date_parse (created_at t) |}.

(** [next[t.status].push(...)] *)
Definition push_row (next : BoardState) (t : TaskRow) : BoardState :=
  with_col (status t) (col (status t) next ++ [row_task t]) next.

(** [fetchTasks] given the [data] of the select ([None] for [null]):
    the board it leaves. *)
Definition fetchTasks (data : option (list TaskRow)) (board : BoardState)
  : BoardState :=
  match data with
  | Some rows =>
    foldl push_row {| todo := []; in_progress := []; done := [] |} rows
  | None => board
  end.

(** Each operation: the board after the update, and the requests sent,
    added to those sent before. *)
Definition addTask (uid : JSString) (now : Z) (col_ : ColumnId)
  (title_ : JSString) (prev : BoardState) (sent : list StoreOp)
  : BoardState * list StoreOp :=
  if negb (truthy (JStr (trim title_))) then (prev, sent)
  else
    (addTask_updater uid now col_ title_ prev,
     sent ++ [Insert {| row_id := uid; row_title := trim title_;
                        status := col_; created_at := toISOString now |}]).

Definition removeTask (col_ : ColumnId) (id_ : JSString) (prev : BoardState)
  (sent : list StoreOp) : BoardState * list StoreOp :=
  (removeTask_updater col_ id_ prev, sent ++ [DeleteEqId id_]).

Definition moveTask (from : JSValue) (to : ColumnId) (id_ : JSValue)
  (index : option Z) (prev : BoardState) (sent : list StoreOp)
  : Outcome BoardState * list StoreOp :=
  (moveTask_updater from to id_ index prev, sent ++ [UpdateStatusEqId to id_]).

Definition onDropColumn (text : JSString) (to : ColumnId) (prev : BoardState)
  (sent : list StoreOp) : Outcome BoardState * list StoreOp :=
  match JSON_parse text with
  | None => (Ok prev, sent)
  | Some payload =>
    if negb (truthy (opt_field (js "taskId") payload))
       || negb (truthy (opt_field (js "from") payload))
    then (Ok prev, sent)
    else moveTask (opt_field (js "from") payload) to
                  (opt_field (js "taskId") payload) None prev sent
  end.
End Host.

End Remote.

(** ** The drag transfer

    [onDragStart] is the same in both variants. *)

Module Drag.

(** What the handlers use of [e.dataTransfer]. *)
Record DataTransfer := {
  text_plain : JSString;     (* the data set for "text/plain" *)
  effectAllowed : JSString
}.

Section Host.
(** [JSON.stringify] *)
Variable JSON_stringify : JSValue → JSString.

(** [onDragStart(e, taskId, from)]: the transfer it leaves. *)
Definition onDragStart (taskId : JSString) (from : ColumnId)
  (dt : DataTransfer) : DataTransfer :=
  {| text_plain :=
       JSON_stringify
         (JObj [(js "taskId", JStr taskId);
                (js "from", JStr (ColumnId_name from))]);
     effectAllowed := js "move" |}.
End Host.

End Drag.

(** ** Titles *)

(** A title as [addTask] stores one: not empty, nothing for [trim] to
    strip. *)
Definition tidy_title (s : JSString) : Prop := s ≠ [] ∧ trim s = s.

(** The first code unit, if any, is not one that [trim] strips. *)
Definition tidy_start (s : JSString) : Prop :=
  match s with
  | [] => True
  | c :: _ => isWhiteSpace c = false
  end.

Definition tidy_titles (b : BoardState) : Prop :=
  Forall (λ t, tidy_title (title t)) (all_tasks b).

(** ** Rows after a status update

    The row [r] with its [status] set, which is what the request
    [update({ status: to }).eq("id", id)] asks of the rows with that id. *)
Definition set_status (to : ColumnId) (r : Remote.TaskRow) : Remote.TaskRow :=
  {| Remote.row_id := Remote.row_id r; Remote.row_title := Remote.row_title r;
     Remote.status := to; Remote.created_at := Remote.created_at r |}.

Definition update_status_eq_id (to : ColumnId) (id_ : JSString)
  (rows : list Remote.TaskRow) : list Remote.TaskRow :=
  (λ r, if decide (Remote.row_id r = id_) then set_status to r else r) <$> rows.

(** ** Sample data *)

Definition sample_task (name : string) : Task :=
  {| id := js name; title := js name; createdAt := Ms 0 |}.

Definition sample_board : BoardState :=
  {| todo := [sample_task "A"; sample_task "B"];
     in_progress := [sample_task "C"];
     done := [] |}.

(** A board with one task, as [add] leaves it on an empty board. *)
Definition milk_board : BoardState :=
  {| todo := [ {| id := js "q7f3k2m"; title := js "Buy milk";
                  createdAt := Ms 1700000000000 |} ];
     in_progress := [];
     done := [] |}.

(** A payload that names a column the board does not have. *)
Definition archive_payload : JSValue :=
  JObj [(js "taskId", JStr (js "q7f3k2m")); (js "from", JStr (js "archive"))].

(** The text [{"taskId":"q7f3k2m","from":"archive"}]. *)
Definition archive_text : JSString :=
  let q := [34%N] in
  js "{" ++ q ++ js "taskId" ++ q ++ js ":" ++ q ++ js "q7f3k2m" ++ q ++ js ","
  ++ q ++ js "from" ++ q ++ js ":" ++ q ++ js "archive" ++ q ++ js "}".

(** [JSON.parse] as far as the sample needs it: the object for the
    sample text, a failure for any other text. *)
Definition parse_archive (s : JSString) : option JSValue :=
  if bool_decide (s = archive_text) then Some archive_payload else None.

(** The payload of a drag of task "A" from [todo], and host functions
    that agree on it. *)
Definition drag_A_payload : JSValue :=
  JObj [(js "taskId", JStr (js "A")); (js "from", JStr (js "todo"))].

Definition stringify_A (v : JSValue) : JSString := js "drag of A".

Definition parse_A (s : JSString) : option JSValue :=
  if bool_decide (s = js "drag of A") then Some drag_A_payload else None.

(** Rows as the select returns them, and host functions for them. *)
Definition sample_rows : list Remote.TaskRow :=
  [ {| Remote.row_id := js "q7f3k2m"; Remote.row_title := js "Buy milk";
       Remote.status := Todo;
       Remote.created_at := js "2023-11-14T22:13:20.000Z" |};
    {| Remote.row_id := js "x0a9b1c"; Remote.row_title := js "Call Ann";
       Remote.status := Done;
       Remote.created_at := js "2023-11-14T22:13:20.000Z" |} ].

Definition sample_Date_parse (s : JSString) : Timestamp := Ms 1700000000000.

Definition sample_toISOString (ms : Z) : JSString :=
  js "2023-11-14T22:13:20.000Z".

(** * Properties *)

(** ** Array primitives *)

Section Arrays.
Context {A : Type}.
Implicit Types (p : A → bool) (l : list A).

Lemma findIndex_ge p l : -1 ≤ findIndex p l.
Proof.
  induction l as [|x r IH]; simpl; [lia|].
  destruct (p x); [lia|]. destruct (Z.eqb_spec (findIndex p r) (-1)); lia.
Qed.

Lemma findIndex_miss p l :
  findIndex p l = -1 ↔ Forall (λ x, p x = false) l.
Proof.
  induction l as [|x r IH]; simpl.
  - split; [constructor | done].
  - destruct (p x) eqn:Hx.
    + split; [lia | by inversion 1; congruence].
    + pose proof (findIndex_ge p r).
      destruct (Z.eqb_spec (findIndex p r) (-1)) as [E|E].
      * split; [|done]. intros _. constructor; [done | by apply IH].
      * split; [lia|]. inversion 1; subst. exfalso. by apply E, IH.
Qed.

Lemma findIndex_hit p l :
  findIndex p l ≠ -1 →
  ∃ (i : nat) (t : A),
    findIndex p l = Z.of_nat i ∧ l !! i = Some t ∧ p t = true
    ∧ Forall (λ x, p x = false) (take i l).
Proof.
  induction l as [|x r IH]; simpl; [done|].
  destruct (p x) eqn:Hx.
  - intros _. exists 0%nat, x. by repeat split; try constructor.
  - destruct (Z.eqb_spec (findIndex p r) (-1)) as [E|E]; [done|].
    intros _. destruct (IH E) as (i & t & Hi & Hl & Ht & Hf).
    exists (S i), t. repeat split; [lia | done | done |].
    simpl. by constructor.
Qed.

Lemma splice_one l (i : nat) (t : A) :
  l !! i = Some t →
  splice (Z.of_nat i) 1 [] l = ([t], delete i l).
Proof.
  intros Hl. pose proof (lookup_lt_Some _ _ _ Hl) as Hlt.
  unfold splice.
  destruct (Z.ltb_spec (Z.of_nat i) 0); [lia|].
  replace (Z.to_nat (Z.min (Z.of_nat i) (Z.of_nat (length l)))) with i by lia.
  replace (Z.to_nat (Z.min (Z.max 1 0) (Z.of_nat (length l) - Z.of_nat i)))
    with 1%nat by lia.
  f_equal.
  - rewrite (drop_S _ _ _ Hl). simpl. by rewrite take_0.
  - simpl. rewrite delete_take_drop. do 2 f_equal. lia.
Qed.

Lemma splice_zero l (k : Z) (t : A) :
  0 ≤ k ≤ Z.of_nat (length l) →
  splice k 0 [t] l = ([], insert_at (Z.to_nat k) t l).
Proof.
  intros Hk. unfold splice, insert_at.
  destruct (Z.ltb_spec k 0); [lia|].
  rewrite (Z.min_l k) by lia. rewrite Z.max_id.
  rewrite Z.min_l by lia.
  simpl. by rewrite Nat.add_0_r.
Qed.

Lemma length_insert_at (k : nat) (x : A) l :
  length (insert_at k x l) = S (length l).
Proof.
  unfold insert_at. rewrite length_app. simpl.
  rewrite length_take, length_drop. lia.
Qed.

Lemma insert_at_perm (k : nat) (x : A) l : insert_at k x l ≡ₚ x :: l.
Proof.
  unfold insert_at. rewrite <- Permutation_middle. by rewrite take_drop.
Qed.

Lemma insert_at_lookup (k : nat) (x : A) l :
  (k ≤ length l)%nat → insert_at k x l !! k = Some x.
Proof.
  intros Hk. unfold insert_at.
  rewrite lookup_app_r; rewrite length_take; [|lia].
  by replace (k - k `min` length l)%nat with 0%nat by lia.
Qed.

Lemma delete_perm l (i : nat) (t : A) : l !! i = Some t → l ≡ₚ t :: delete i l.
Proof. intros Hl. by apply delete_Permutation. Qed.
End Arrays.

(** ** Columns of a board *)

Lemma key_column_name c : key_column (JStr (ColumnId_name c)) = Some c.
Proof. by destruct c. Qed.

Lemma strict_eq_name from to :
  strict_eq_str (JStr (ColumnId_name from)) (ColumnId_name to)
  = bool_decide (from = to).
Proof. by destruct from, to. Qed.

Lemma col_with_col c l b : col c (with_col c l b) = l.
Proof. by destruct c. Qed.

Lemma col_with_col_ne c c' l b : c ≠ c' → col c' (with_col c l b) = col c' b.
Proof. by destruct c, c'. Qed.

Lemma with_col_col c b : with_col c (col c b) b = b.
Proof. by destruct c, b. Qed.

Lemma with_col_twice c l l' b : with_col c l (with_col c l' b) = with_col c l b.
Proof. by destruct c. Qed.

(** ** The updater of [moveTask] without the store

    The two array references are resolved: when [from === to] the removal
    and the insertion act on one array. *)

#[local] Arguments splice : simpl never.
#[local] Arguments findIndex : simpl never.

Lemma moveTask_updater_eq from to id_ index prev l :
  board_get prev from = Some l →
  moveTask_updater from to id_ index prev =
    let same := strict_eq_str from (ColumnId_name to) in
    let i := findIndex (λ t, strict_eq_str id_ (id t)) l in
    if i =? -1 then Ok prev
    else
      let rs := splice i 1 [] l in
      match rs.1 with
      | [] => Throw UndefinedTask
      | task :: _ =>
        let w := if same then rs.2 else col to prev in
        let insertAt :=
          match index with
          | Some n => Z.max 0 (Z.min n (Z.of_nat (length w)))
          | None => Z.of_nat (length w)
          end in
        let tgt := (splice insertAt 0 [task] w).2 in
        Ok (with_col to tgt (board_set from (if same then tgt else rs.2) prev))
      end.
Proof.
  intros Hl. unfold moveTask_updater. rewrite Hl. cbv zeta.
  set (p := λ t, strict_eq_str id_ (id t)).
  destruct (strict_eq_str from (ColumnId_name to));
    cbv [run bind spread ret arr_findIndex arr_splice arr_length read write];
    cbn [length app lookup list_lookup default from_option Datatypes.id];
    (destruct (findIndex p l =? -1); [reflexivity|]);
    cbn [length app lookup list_lookup default from_option Datatypes.id];
    destruct (splice (findIndex p l) 1 [] l) as [[|task removed] src];
    cbn [first throw ret fst snd insert list_insert lookup list_lookup default
         from_option Datatypes.id]; try reflexivity.
  all: match goal with |- context [splice ?a 0 ?ts ?w] =>
         destruct (splice a 0 ts w) end.
  all: reflexivity.
Qed.

(** ** [move]: the id is not in the source column, or it is *)

Lemma findIndex_id_miss (id_ : JSString) (l : list Task) :
  findIndex (λ t, strict_eq_str (JStr id_) (id t)) l = -1 ↔ id_ ∉ id <$> l.
Proof.
  rewrite findIndex_miss, Forall_forall, list_elem_of_fmap. split.
  - intros H (t & -> & Ht). specialize (H t Ht). simpl in H.
    by rewrite bool_decide_eq_false in H.
  - intros H t Ht. simpl. apply bool_decide_eq_false. intros E. apply H. eauto.
Qed.

Lemma move_miss from to id_ index b :
  id_ ∉ id <$> col from b → move from to id_ index b = Ok b.
Proof.
  intros H. unfold move.
  rewrite (moveTask_updater_eq _ _ _ _ _ (col from b))
    by (unfold board_get; by rewrite key_column_name).
  cbv zeta. apply findIndex_id_miss in H. by rewrite H.
Qed.

Lemma move_hit from to id_ index b :
  id_ ∈ id <$> col from b →
  ∃ (i : nat) (t : Task),
    col from b !! i = Some t ∧ id t = id_
    ∧ Forall (λ x, id x ≠ id_) (take i (col from b))
    ∧ move from to id_ index b = Ok (moved from to i t index b).
Proof.
  intros H. unfold move.
  rewrite (moveTask_updater_eq _ _ _ _ _ (col from b))
    by (unfold board_get; by rewrite key_column_name).
  cbv zeta. rewrite strict_eq_name.
  set (p := λ t, strict_eq_str (JStr id_) (id t)).
  destruct (findIndex_hit p (col from b)) as (i & t & Hi & Hl & Ht & Hf).
  { intros E. by apply findIndex_id_miss in E. }
  exists i, t. rewrite Hi.
  destruct (Z.eqb_spec (Z.of_nat i) (-1)) as [|_]; [lia|].
  rewrite (splice_one _ _ _ Hl). cbn [fst snd].
  split; [done|]. split; [by apply bool_decide_eq_true in Ht|].
  split.
  { eapply Forall_impl; [exact Hf|]. intros x Hx E. subst p. simpl in Hx.
    by apply bool_decide_eq_false in Hx. }
  unfold moved, board_set. rewrite key_column_name.
  set (w := if bool_decide (from = to) then _ else _).
  rewrite splice_zero by (destruct index; lia). cbn [snd].
  replace (Z.to_nat match index with
                    | Some n => 0 `max` (n `min` Z.of_nat (length w))
                    | None => Z.of_nat (length w)
                    end) with (clamp_index index (length w))
    by (destruct index; simpl; lia).
  done.
Qed.

(** ** The moved board *)

Lemma task_count_all_tasks b : task_count b = length (all_tasks b).
Proof. unfold task_count, all_tasks. rewrite !length_app. lia. Qed.

Lemma moved_all_tasks from to i t index b :
  col from b !! i = Some t →
  all_tasks (moved from to i t index b) ≡ₚ all_tasks b.
Proof.
  intros Hl. apply delete_Permutation in Hl.
  unfold moved, all_tasks.
  destruct from, to; simpl in *;
    rewrite ?insert_at_perm;
    match type of Hl with _ ≡ₚ _ :: ?r => set (rest := r) in * end;
    rewrite Hl; solve_Permutation.
Qed.

Lemma moved_target from to i t index b :
  col to (moved from to i t index b)
  = let target :=
      if bool_decide (from = to) then delete i (col from b) else col to b in
    insert_at (clamp_index index (length target)) t target.
Proof. unfold moved. by rewrite col_with_col. Qed.

Lemma moved_source from to i t index b :
  from ≠ to → col from (moved from to i t index b) = delete i (col from b).
Proof.
  intros Hne. unfold moved. rewrite col_with_col_ne by done.
  rewrite col_with_col. by rewrite bool_decide_eq_false_2.
Qed.

Lemma moved_other from to i t index b c :
  c ≠ from → c ≠ to → col c (moved from to i t index b) = col c b.
Proof. intros. unfold moved. by rewrite !col_with_col_ne. Qed.

(** ** Claims about [move] *)

(** C1. When the id is in column [from], [move] takes the first task [t]
    with that id out of [from] and puts it into [to] at the index clamped
    to [0, length of the target list], at the end without an index; the
    target list is column [to], which for [from = to] is the column with
    [t] already taken out.  The other columns are as before, and for
    [from = to] the column holds the same tasks as before, so the same
    ids, none twice more and none lost. *)
Theorem move_places_task (b : BoardState) (from to : ColumnId)
  (id_ : JSString) (index : option Z) :
  id_ ∈ id <$> col from b →
  ∃ (i : nat) (t : Task) (b' : BoardState),
    move from to id_ index b = Ok b'
    ∧ col from b !! i = Some t ∧ id t = id_
    ∧ Forall (λ x, id x ≠ id_) (take i (col from b))
    ∧ (let rest := delete i (col from b) in
       let target := if bool_decide (from = to) then rest else col to b in
       let k := clamp_index index (length target) in
       (k ≤ length target)%nat
       ∧ (∀ n, index = Some n → 0 ≤ n ≤ Z.of_nat (length target) →
               k = Z.to_nat n)
       ∧ (index = None → k = length target)
       ∧ col to b' = insert_at k t target
       ∧ col to b' !! k = Some t
       ∧ (from ≠ to → col from b' = rest)
       ∧ (∀ c, c ≠ from → c ≠ to → col c b' = col c b)
       ∧ (from = to →
          col to b' ≡ₚ col from b
          ∧ id <$> col to b' ≡ₚ id <$> col from b
          ∧ ∀ x, x ∈ id <$> col to b' ↔ x ∈ id <$> col from b)).
Proof.
  intros Hin. destruct (move_hit from to id_ index b Hin)
    as (i & t & Hl & Hid & Hfirst & Hmove).
  exists i, t, (moved from to i t index b).
  do 4 (split; [done|]). cbv zeta.
  set (target := if bool_decide (from = to) then _ else _).
  assert (Hk : (clamp_index index (length target) ≤ length target)%nat)
    by (destruct index; simpl; lia).
  split; [done|].
  split; [intros n -> Hn; simpl; lia|].
  split; [by intros ->|].
  split; [apply moved_target|].
  split; [rewrite moved_target; by apply insert_at_lookup|].
  split; [apply moved_source|].
  split; [intros c; apply moved_other|].
  intros <-. rewrite moved_target. cbv zeta. fold target.
  assert (Hp : insert_at (clamp_index index (length target)) t target
               ≡ₚ col from b).
  { rewrite insert_at_perm. subst target. rewrite bool_decide_eq_true_2 by done.
    symmetry. by apply delete_Permutation. }
  split; [done|]. split; [by rewrite Hp|]. intros x. by rewrite Hp.
Qed.

Lemma move_places_task_witness :
  js "A" ∈ id <$> col Todo sample_board
  ∧ ∃ b' : BoardState,
      move Todo Todo (js "A") (Some 5) sample_board = Ok b'
      ∧ todo b' = [sample_task "B"; sample_task "A"].
Proof.
  assert (Hin : js "A" ∈ id <$> col Todo sample_board)
    by (vm_compute; apply list_elem_of_here).
  split; [exact Hin|].
  destruct (move_places_task sample_board Todo Todo (js "A") (Some 5) Hin)
    as (i & t & b' & Hm & _).
  exists b'. split; [exact Hm|].
  vm_compute in Hm. injection Hm as <-. reflexivity.
Defined.

(** C2. [move] leaves the number of tasks on the board unchanged. *)
Theorem move_task_count (b : BoardState) (from to : ColumnId)
  (id_ : JSString) (index : option Z) :
  ∃ b', move from to id_ index b = Ok b' ∧ task_count b' = task_count b.
Proof.
  destruct (decide (id_ ∈ id <$> col from b)) as [Hin|Hout].
  - destruct (move_hit from to id_ index b Hin) as (i & t & Hl & _ & _ & Hm).
    exists (moved from to i t index b). split; [done|].
    rewrite !task_count_all_tasks. by rewrite moved_all_tasks.
  - exists b. split; [by apply move_miss | done].
Qed.

(** C4. [move] of an id that is not in column [from] returns the board it
    was given, whatever [to] and [index] are. *)
Theorem move_unknown_id (b : BoardState) (from to : ColumnId)
  (id_ : JSString) (index : option Z) :
  id_ ∉ id <$> col from b → move from to id_ index b = Ok b.
Proof. apply move_miss. Qed.

Lemma move_unknown_id_witness :
  move Todo Done (js "C") (Some 1) sample_board = Ok sample_board.
Proof.
  apply (move_unknown_id sample_board Todo Done (js "C") (Some 1)).
  apply (bool_decide_unpack _). vm_compute. exact I.
Defined.

(** ** [add] and [remove] *)

Lemma add_blank uid now c title_ b : trim title_ = [] → add uid now c title_ b = b.
Proof. intros H. unfold add. simpl. by rewrite H. Qed.

Lemma add_nonblank uid now c title_ b :
  trim title_ ≠ [] →
  add uid now c title_ b = addTask_updater uid now c title_ b.
Proof. intros H. unfold add. simpl. by rewrite bool_decide_eq_false_2. Qed.

Lemma addTask_updater_all_tasks uid now c title_ b :
  all_tasks (addTask_updater uid now c title_ b)
  ≡ₚ {| id := uid; title := trim title_; createdAt := Ms now |} :: all_tasks b.
Proof. unfold addTask_updater, all_tasks. destruct c; simpl; solve_Permutation. Qed.

Lemma filter_all {A} (P : A → Prop) `{!∀ x, Decision (P x)} (l : list A) :
  Forall P l → filter P l = l.
Proof.
  induction 1 as [|x l Hx _ IH]; [done|].
  rewrite filter_cons, decide_True by done. by rewrite IH.
Qed.

Lemma remove_all_tasks c id_ b :
  all_tasks (remove c id_ b) `sublist_of` all_tasks b.
Proof.
  unfold remove, removeTask_updater, all_tasks.
  destruct c; simpl; repeat apply sublist_app; try done; apply sublist_filter.
Qed.

Lemma remove_absent c id_ b :
  id_ ∉ id <$> col c b → remove c id_ b = b.
Proof.
  intros H. unfold remove, removeTask_updater.
  rewrite filter_all; [apply with_col_col|].
  apply Forall_forall. intros t Ht E. apply H, list_elem_of_fmap. eauto.
Qed.

(** ** Claims about [add] and the invariant *)

(** C5. [add] with a title that trims to the empty string returns the
    board it was given. *)
Theorem add_blank_title (b : BoardState) (uid : JSString) (now : Z)
  (c : ColumnId) (title_ : JSString) :
  trim title_ = [] → add uid now c title_ b = b.
Proof. apply add_blank. Qed.

Lemma add_blank_title_witness :
  add (js "q7f3k2m") 1700000000000 Todo (js "   ") sample_board = sample_board.
Proof.
  apply (add_blank_title sample_board (js "q7f3k2m") 1700000000000 Todo (js "   ")).
  reflexivity.
Defined.

(** C6. [add] with a title whose trim is not empty puts one new task, with
    the trimmed title, the drawn id and the clock reading, in front of the
    column's list, and leaves the two other columns as they were. *)
Theorem add_prepends (b : BoardState) (uid : JSString) (now : Z)
  (c : ColumnId) (title_ : JSString) :
  trim title_ ≠ [] →
  col c (add uid now c title_ b)
  = {| id := uid; title := trim title_; createdAt := Ms now |} :: col c b
  ∧ ∀ c', c' ≠ c → col c' (add uid now c title_ b) = col c' b.
Proof.
  intros H. rewrite add_nonblank by done. unfold addTask_updater. split.
  - by rewrite col_with_col.
  - intros c' Hc. by rewrite col_with_col_ne.
Qed.

Lemma add_prepends_witness :
  todo (add (js "q7f3k2m") 1700000000000 Todo (js " Buy milk ") Remote.initialData)
  = [ {| id := js "q7f3k2m"; title := js "Buy milk";
         createdAt := Ms 1700000000000 |} ].
Proof.
  apply (add_prepends Remote.initialData (js "q7f3k2m") 1700000000000 Todo
           (js " Buy milk ")).
  vm_compute. discriminate.
Defined.

(** C3, as the code has it. On a board without a repeated id, [remove] and
    [move] give a board without a repeated id; [add] does exactly when
    the title trims to the empty string or the id drawn by [uid()] is not
    on the board. *)
Theorem unique_ids_preserved (b : BoardState) :
  unique_ids b →
  (∀ c id_, unique_ids (remove c id_ b))
  ∧ (∀ from to id_ index,
       ∃ b', move from to id_ index b = Ok b' ∧ unique_ids b')
  ∧ (∀ uid now c title_,
       unique_ids (add uid now c title_ b)
       ↔ trim title_ = [] ∨ uid ∉ id <$> all_tasks b).
Proof.
  unfold unique_ids. intros Hb. repeat split.
  - intros c id_. eapply sublist_NoDup; [exact Hb|].
    apply fmap_sublist, remove_all_tasks.
  - intros from to id_ index.
    destruct (decide (id_ ∈ id <$> col from b)) as [Hin|Hout].
    + destruct (move_hit from to id_ index b Hin) as (i & t & Hl & _ & _ & Hm).
      exists (moved from to i t index b). split; [done|].
      by rewrite moved_all_tasks.
    + exists b. split; [by apply move_miss | done].
  - intros H. destruct (decide (trim title_ = [])) as [|Hne]; [by left|right].
    rewrite add_nonblank, addTask_updater_all_tasks in H by done.
    simpl in H. by apply NoDup_cons in H as [? _].
  - intros [Hblank|Hfresh].
    + by rewrite add_blank.
    + destruct (decide (trim title_ = [])) as [|Hne]; [by rewrite add_blank|].
      rewrite add_nonblank, addTask_updater_all_tasks by done.
      simpl. by apply NoDup_cons.
Qed.

Lemma unique_ids_preserved_witness :
  unique_ids sample_board ∧ unique_ids (remove Todo (js "A") sample_board).
Proof.
  assert (H : unique_ids sample_board)
    by (apply (bool_decide_unpack _); vm_compute; exact I).
  split; [exact H|].
  apply (unique_ids_preserved sample_board H).
Defined.

(** C3, as stated, fails for [add]: [uid()] is a random draw, and nothing
    compares it with the ids on the board. *)
Lemma add_repeats_id :
  unique_ids milk_board
  ∧ ¬ unique_ids
        (add (js "q7f3k2m") 1700000360000 Done (js "Call Ann") milk_board).
Proof.
  split.
  - apply (bool_decide_unpack _). vm_compute. exact I.
  - apply (bool_decide_eq_false_1 (unique_ids _)). vm_compute. reflexivity.
Qed.

(** ** The drop handler *)

Section Drop.
Variable JSON_parse : JSString → option JSValue.

Lemma drop_unparsable text to b :
  JSON_parse text = None → Local.onDropColumn JSON_parse text to b = Ok b.
Proof. intros H. unfold Local.onDropColumn. by rewrite H. Qed.

Lemma drop_missing_field text payload to b :
  JSON_parse text = Some payload →
  truthy (opt_field (js "taskId") payload) = false
  ∨ truthy (opt_field (js "from") payload) = false →
  Local.onDropColumn JSON_parse text to b = Ok b.
Proof.
  intros H Hf. unfold Local.onDropColumn. rewrite H.
  by destruct Hf as [-> | ->]; rewrite ?orb_true_r.
Qed.

Lemma drop_moves text payload from id_ to b :
  JSON_parse text = Some payload →
  opt_field (js "taskId") payload = JStr id_ → id_ ≠ [] →
  opt_field (js "from") payload = JStr (ColumnId_name from) →
  Local.onDropColumn JSON_parse text to b = move from to id_ None b.
Proof.
  intros H Hid Hne Hfrom. unfold Local.onDropColumn. rewrite H, Hid, Hfrom.
  simpl. rewrite bool_decide_eq_false_2 by done.
  by destruct from.
Qed.

Lemma drop_remote_board text to b sent :
  (Remote.onDropColumn JSON_parse text to b sent).1
  = Local.onDropColumn JSON_parse text to b.
Proof.
  unfold Remote.onDropColumn, Local.onDropColumn.
  destruct (JSON_parse text) as [payload|]; [|done].
  by destruct (_ || _).
Qed.
End Drop.

(** C7 fails on the code: a payload with both fields whose [from] names no
    column makes the updater of [moveTask] spread [prev[from]], which is
    [undefined]; the TypeError is thrown when the update is processed, not
    inside the handler's [try], in both variants. *)
Theorem drop_unknown_column_throws (JSON_parse : JSString → option JSValue)
  (text : JSString) (to : ColumnId) (b : BoardState)
  (sent : list Remote.StoreOp) :
  JSON_parse text = Some archive_payload →
  Local.onDropColumn JSON_parse text to b = Throw TypeError
  ∧ (Remote.onDropColumn JSON_parse text to b sent).1 = Throw TypeError.
Proof.
  intros H. rewrite drop_remote_board.
  unfold Local.onDropColumn. rewrite H. by split.
Qed.

Lemma drop_unknown_column_throws_witness :
  Local.onDropColumn parse_archive archive_text Done milk_board
  = Throw TypeError.
Proof.
  apply (drop_unknown_column_throws parse_archive archive_text Done
           milk_board []).
  reflexivity.
Defined.

(** A [from] that is an array holding a column's name reads that column
    but is not [===] to it: the task is put twice into the column. *)
Example drop_array_from_repeats_task :
  Local.moveTask (JArr [JStr (js "todo")]) Todo (JStr (js "q7f3k2m")) None
    milk_board
  = Ok {| todo := todo milk_board ++ todo milk_board;
          in_progress := []; done := [] |}.
Proof. reflexivity. Qed.

(** ** The local snapshot *)

(** C8. When the stored snapshot is absent or does not parse, the board
    after the load is the seed: two tasks in [todo], nothing in
    [in_progress] and [done]. *)
Theorem load_falls_back_to_seed (JSON_parse : JSString → option JSValue)
  (uid1 uid2 : JSString) (now1 now2 : Z) (stored : Local.StorageRead) :
  stored = Local.ReadNull
  ∨ (∃ raw, stored = Local.ReadString raw ∧ JSON_parse raw = None) →
  let seed := Local.initialData uid1 uid2 now1 now2 in
  Local.useLocalBoard JSON_parse seed stored = Local.Board seed
  ∧ length (todo seed) = 2%nat ∧ in_progress seed = [] ∧ done seed = [].
Proof.
  intros H seed. split; [|done].
  unfold Local.useLocalBoard, Local.load.
  destruct H as [-> | (raw & -> & ->)]; [done|]. by destruct (truthy _).
Qed.

Lemma load_falls_back_to_seed_witness :
  Local.useLocalBoard (λ _, None)
    (Local.initialData (js "q7f3k2m") (js "x0a9b1c") 1700000000000 1700000000000)
    (Local.ReadString (js "{not json"))
  = Local.Board
      (Local.initialData (js "q7f3k2m") (js "x0a9b1c") 1700000000000 1700000000000).
Proof.
  apply (load_falls_back_to_seed (λ _, None) (js "q7f3k2m") (js "x0a9b1c")
           1700000000000 1700000000000 (Local.ReadString (js "{not json"))).
  right. exists (js "{not json"). split; reflexivity.
Defined.

(** ** The remote table *)

Section Fetch.
Variable Date_parse : JSString → Timestamp.

Lemma foldl_push_row (rows : list Remote.TaskRow) (b : BoardState) (c : ColumnId) :
  col c (foldl (Remote.push_row Date_parse) b rows)
  = col c b
    ++ (Remote.row_task Date_parse
          <$> filter (λ r, Remote.status r = c) rows).
Proof.
  revert b. induction rows as [|r rows IH]; intros b; simpl.
  - by rewrite app_nil_r.
  - rewrite IH, filter_cons. unfold Remote.push_row.
    destruct (decide (Remote.status r = c)) as [->|Hne].
    + rewrite col_with_col. by rewrite <- app_assoc.
    + by rewrite col_with_col_ne.
Qed.
End Fetch.

(** C9. The board that [fetchTasks] builds from the rows of the select
    has, in each column, the tasks of the rows with that status, in the
    order of the rows. *)
Theorem fetchTasks_groups_by_status (Date_parse : JSString → Timestamp)
  (rows : list Remote.TaskRow) (board : BoardState) (c : ColumnId) :
  col c (Remote.fetchTasks Date_parse (Some rows) board)
  = Remote.row_task Date_parse <$> filter (λ r, Remote.status r = c) rows.
Proof.
  unfold Remote.fetchTasks. rewrite foldl_push_row. by destruct c.
Qed.

Lemma fetchTasks_null (Date_parse : JSString → Timestamp) (board : BoardState) :
  Remote.fetchTasks Date_parse None board = board.
Proof. reflexivity. Qed.

(** C10. [removeTask] of the remote variant sends the delete by id
    whatever the column is: when no task of the named column has the id,
    the board stays as it was and the delete is sent all the same. *)
Theorem remote_removeTask_absent (b : BoardState) (c : ColumnId)
  (id_ : JSString) (sent : list Remote.StoreOp) :
  id_ ∉ id <$> col c b →
  Remote.removeTask c id_ b sent = (b, sent ++ [Remote.DeleteEqId id_]).
Proof.
  intros H. unfold Remote.removeTask. f_equal. by apply remove_absent.
Qed.

Lemma remote_removeTask_sends_delete c id_ b sent :
  (Remote.removeTask c id_ b sent).2 = sent ++ [Remote.DeleteEqId id_].
Proof. reflexivity. Qed.

Lemma remote_removeTask_absent_witness :
  Remote.removeTask Done (js "q7f3k2m") milk_board []
  = (milk_board, [Remote.DeleteEqId (js "q7f3k2m")]).
Proof.
  apply (remote_removeTask_absent milk_board Done (js "q7f3k2m") []).
  apply (bool_decide_unpack _). vm_compute. exact I.
Defined.


(** ** The variants and the board operations *)

Lemma local_moveTask_move from to id_ index b :
  Local.moveTask (JStr (ColumnId_name from)) to (JStr id_) index b
  = move from to id_ index b.
Proof. reflexivity. Qed.

Section RemoteBoard.
Variable toISOString : Z → JSString.

Lemma remote_addTask_board uid now c title_ b sent :
  (Remote.addTask toISOString uid now c title_ b sent).1
  = add uid now c title_ b.
Proof. unfold Remote.addTask, add. by destruct (negb _). Qed.

Lemma remote_addTask_blank uid now c title_ b sent :
  trim title_ = [] →
  Remote.addTask toISOString uid now c title_ b sent = (b, sent).
Proof. intros H. unfold Remote.addTask. simpl. by rewrite H. Qed.

Lemma remote_removeTask_board c id_ b sent :
  (Remote.removeTask c id_ b sent).1 = remove c id_ b.
Proof. reflexivity. Qed.

Lemma remote_moveTask_board from to id_ index b sent :
  Remote.moveTask (JStr (ColumnId_name from)) to (JStr id_) index b sent
  = (move from to id_ index b, sent ++ [Remote.UpdateStatusEqId to (JStr id_)]).
Proof. reflexivity. Qed.
End RemoteBoard.

(** ** Scenarios *)

Example trim_title : trim (js "  Buy milk ") = js "Buy milk".
Proof. reflexivity. Qed.

Example seed_title_units :
  length (js "Спробувати нову дошку") = 21%nat.
Proof. reflexivity. Qed.

Example move_to_in_progress :
  move Todo InProgress (js "A") None
    {| todo := [sample_task "A"; sample_task "B"]; in_progress := []; done := [] |}
  = Ok {| todo := [sample_task "B"]; in_progress := [sample_task "A"];
          done := [] |}.
Proof. reflexivity. Qed.

Example move_within_column_to_end :
  move Todo Todo (js "A") (Some 2) sample_board
  = Ok {| todo := [sample_task "B"; sample_task "A"];
          in_progress := [sample_task "C"]; done := [] |}.
Proof. reflexivity. Qed.

Example move_negative_index :
  move InProgress Todo (js "C") (Some (-3)) sample_board
  = Ok {| todo := [sample_task "C"; sample_task "A"; sample_task "B"];
          in_progress := []; done := [] |}.
Proof. reflexivity. Qed.

Example add_on_empty_board :
  add (js "q7f3k2m") 1700000000000 Todo (js "Buy milk") Remote.initialData
  = milk_board.
Proof. reflexivity. Qed.

Example remove_after_add :
  remove Todo (js "q7f3k2m") milk_board = Remote.initialData.
Proof. reflexivity. Qed.

(** * Further properties of the operations *)

(** ** More on lists *)

Section Lists.
Context {A : Type}.
Implicit Types (l : list A) (x : A).

Lemma insert_at_lookup_lt (k j : nat) x l :
  (j < k)%nat → (k ≤ length l)%nat → insert_at k x l !! j = l !! j.
Proof.
  intros Hj Hk. unfold insert_at.
  rewrite lookup_app_l by (rewrite length_take; lia).
  by rewrite lookup_take_lt.
Qed.

Lemma delete_insert_at (k : nat) x l :
  (k ≤ length l)%nat → delete k (insert_at k x l) = l.
Proof.
  intros Hk. unfold insert_at. rewrite delete_take_drop.
  rewrite take_app_le by (rewrite length_take; lia).
  rewrite take_take, Nat.min_id.
  rewrite drop_app_ge by (rewrite length_take; lia).
  rewrite length_take.
  replace (S k - k `min` length l)%nat with 1%nat by lia.
  simpl. rewrite drop_0. apply take_drop.
Qed.

Lemma insert_at_delete (i : nat) x l :
  l !! i = Some x → insert_at i x (delete i l) = l.
Proof.
  intros Hl. pose proof (lookup_lt_Some _ _ _ Hl) as Hlt.
  unfold insert_at. rewrite delete_take_drop.
  rewrite take_app_le by (rewrite length_take; lia).
  rewrite take_take, Nat.min_id.
  rewrite drop_app_ge by (rewrite length_take; lia).
  rewrite length_take.
  replace (i - i `min` length l)%nat with 0%nat by lia.
  rewrite drop_0. rewrite <- (take_drop_middle l i x Hl) at 3. done.
Qed.

Lemma insert_at_end x l : insert_at (length l) x l = l ++ [x].
Proof. unfold insert_at. by rewrite take_ge, drop_ge by lia. Qed.

Lemma first_position (P : A → Prop) l (i j : nat) x y :
  l !! i = Some x → P x → Forall (λ z, ¬ P z) (take i l) →
  l !! j = Some y → P y → Forall (λ z, ¬ P z) (take j l) →
  i = j.
Proof.
  intros Hi Px Fi Hj Py Fj.
  destruct (Nat.lt_trichotomy i j) as [Hlt | [-> | Hlt]]; [|done|].
  - exfalso. rewrite Forall_forall in Fj. apply (Fj x); [|done].
    apply list_elem_of_lookup. exists i. by rewrite lookup_take_lt.
  - exfalso. rewrite Forall_forall in Fi. apply (Fi y); [|done].
    apply list_elem_of_lookup. exists j. by rewrite lookup_take_lt.
Qed.
End Lists.

Lemma board_ext (b1 b2 : BoardState) :
  (∀ c, col c b1 = col c b2) → b1 = b2.
Proof.
  intros H. destruct b1, b2.
  pose proof (H Todo). pose proof (H InProgress). pose proof (H Done).
  simpl in *. by subst.
Qed.

(** [move] of the task known to be the first with the id. *)
Lemma move_at from to id_ index b (i : nat) (t : Task) :
  col from b !! i = Some t → id t = id_ →
  Forall (λ x, id x ≠ id_) (take i (col from b)) →
  move from to id_ index b = Ok (moved from to i t index b).
Proof.
  intros Hl Hid Hfirst.
  destruct (move_hit from to id_ index b) as (j & u & Hj & Hu & Hfj & Hm).
  { apply list_elem_of_fmap. exists t. split; [done|].
    by eapply list_elem_of_lookup_2. }
  assert (i = j) as <-.
  { eapply (first_position (λ x, id x = id_)); eauto. }
  by replace u with t in Hm by congruence.
Qed.

(** ** [moveTask] on run-time values *)

Lemma findIndex_first {A} (p : A → bool) (l : list A) (i : nat) (t : A) :
  l !! i = Some t → p t = true → Forall (λ x, p x = false) (take i l) →
  findIndex p l = Z.of_nat i.
Proof.
  intros Hl Ht Hf.
  destruct (findIndex_hit p l) as (j & u & Hj & Hlj & Hu & Hfj).
  { intros E. apply findIndex_miss in E. rewrite Forall_forall in E.
    specialize (E t (list_elem_of_lookup_2 _ _ _ Hl)). congruence. }
  rewrite Hj. f_equal.
  eapply (first_position (λ x, p x = true)); eauto;
    (eapply Forall_impl; [eassumption|]); intros x Hx; by rewrite Hx.
Qed.

Lemma board_get_key prev from c :
  key_column from = Some c → board_get prev from = Some (col c prev).
Proof. intros H. unfold board_get. by rewrite H. Qed.

Lemma moveTask_updater_miss from to id_ index prev c :
  key_column from = Some c →
  findIndex (λ t, strict_eq_str id_ (id t)) (col c prev) = -1 →
  moveTask_updater from to id_ index prev = Ok prev.
Proof.
  intros Hk Hf.
  rewrite (moveTask_updater_eq _ _ _ _ _ _ (board_get_key prev _ _ Hk)).
  cbv zeta. by rewrite Hf.
Qed.

Lemma moveTask_updater_found from to id_ index prev c (i : nat) (t : Task) :
  key_column from = Some c →
  findIndex (λ t, strict_eq_str id_ (id t)) (col c prev) = Z.of_nat i →
  col c prev !! i = Some t →
  moveTask_updater from to id_ index prev =
    Ok (let same := strict_eq_str from (ColumnId_name to) in
        let rest := delete i (col c prev) in
        let w := if same then rest else col to prev in
        let placed := insert_at (clamp_index index (length w)) t w in
        with_col to placed (with_col c (if same then placed else rest) prev)).
Proof.
  intros Hk Hf Hl.
  rewrite (moveTask_updater_eq _ _ _ _ _ _ (board_get_key prev _ _ Hk)).
  cbv zeta. rewrite Hf.
  destruct (Z.eqb_spec (Z.of_nat i) (-1)) as [|_]; [lia|].
  rewrite (splice_one _ _ _ Hl). cbn [fst snd].
  unfold board_set. rewrite Hk.
  set (w := if strict_eq_str from (ColumnId_name to) then _ else _).
  rewrite splice_zero by (destruct index; lia). cbn [snd].
  replace (Z.to_nat match index with
                    | Some n => 0 `max` (n `min` Z.of_nat (length w))
                    | None => Z.of_nat (length w)
                    end) with (clamp_index index (length w))
    by (destruct index; simpl; lia).
  done.
Qed.

Lemma moveTask_updater_ok from to id_ index prev c :
  key_column from = Some c →
  ∃ b', moveTask_updater from to id_ index prev = Ok b'.
Proof.
  intros Hk. set (p := λ t, strict_eq_str id_ (id t)).
  destruct (decide (findIndex p (col c prev) = -1)) as [E|E].
  - exists prev. by eapply moveTask_updater_miss.
  - destruct (findIndex_hit p (col c prev) E) as (i & t & Hi & Hl & _ & _).
    eexists. by eapply moveTask_updater_found.
Qed.

(** X1. The updater of [moveTask] throws exactly when [from] names no
    column, and then it is the TypeError of the spread; the destructured
    task is never [undefined]. *)
Theorem moveTask_updater_throws (from : JSValue) (to : ColumnId)
  (id_ : JSValue) (index : option Z) (prev : BoardState) (e : Exn) :
  moveTask_updater from to id_ index prev = Throw e
  ↔ e = TypeError ∧ key_column from = None.
Proof.
  destruct (key_column from) as [c|] eqn:Hk.
  - destruct (moveTask_updater_ok from to id_ index prev c Hk) as [b' ->].
    split; [done | by intros [_ ?]].
  - unfold moveTask_updater, board_get. rewrite Hk. simpl.
    split; [by intros [= <-] | by intros [-> _]].
Qed.

Lemma with_col_insert_at_all_tasks c (k : nat) t b :
  all_tasks (with_col c (insert_at k t (col c b)) b) ≡ₚ t :: all_tasks b.
Proof.
  unfold all_tasks. destruct c; simpl; rewrite insert_at_perm; solve_Permutation.
Qed.

(** X2. When [from] reads the column [to] without being the string
    [to] (an array around the name), the task is not taken out: it is put
    into the column a second time, and the board has one task more. *)
Theorem moveTask_alias_repeats_task (from : JSValue) (to : ColumnId)
  (id_ : JSString) (index : option Z) (b : BoardState) :
  key_column from = Some to →
  strict_eq_str from (ColumnId_name to) = false →
  id_ ∈ id <$> col to b →
  ∃ (i : nat) (t : Task) (b' : BoardState),
    moveTask_updater from to (JStr id_) index b = Ok b'
    ∧ col to b !! i = Some t ∧ id t = id_
    ∧ col to b'
      = insert_at (clamp_index index (length (col to b))) t (col to b)
    ∧ (∀ c, c ≠ to → col c b' = col c b)
    ∧ task_count b' = S (task_count b)
    ∧ ¬ unique_ids b'.
Proof.
  intros Hk Hs Hin.
  set (p := λ t, strict_eq_str (JStr id_) (id t)).
  destruct (findIndex_hit p (col to b)) as (i & t & Hi & Hl & Ht & _).
  { intros E. by apply findIndex_id_miss in E. }
  apply bool_decide_eq_true in Ht.
  rewrite (moveTask_updater_found _ _ _ _ _ _ _ _ Hk Hi Hl).
  cbv zeta. rewrite Hs, with_col_twice.
  set (k := clamp_index index (length (col to b))).
  exists i, t, (with_col to (insert_at k t (col to b)) b).
  split; [done|]. split; [done|]. split; [done|].
  split; [by rewrite col_with_col|].
  split; [intros c Hc; by rewrite col_with_col_ne|].
  split.
  - rewrite !task_count_all_tasks, with_col_insert_at_all_tasks. done.
  - unfold unique_ids. rewrite with_col_insert_at_all_tasks. simpl.
    rewrite NoDup_cons. intros [Hn _]. apply Hn.
    apply list_elem_of_fmap. exists t. split; [done|].
    unfold all_tasks. apply list_elem_of_lookup_2 in Hl.
    destruct to; simpl in Hl; rewrite !elem_of_app; auto.
Qed.

Lemma moveTask_alias_repeats_task_witness :
  ∃ b' : BoardState,
    moveTask_updater (JArr [JStr (js "todo")]) Todo (JStr (js "A")) (Some 0)
      sample_board = Ok b'
    ∧ task_count b' = 4%nat.
Proof.
  destruct (moveTask_alias_repeats_task (JArr [JStr (js "todo")]) Todo
              (js "A") (Some 0) sample_board)
    as (i & t & b' & Hm & _ & _ & _ & _ & Hc & _).
  - reflexivity.
  - reflexivity.
  - vm_compute. apply list_elem_of_here.
  - exists b'. split; [exact Hm | exact Hc].
Defined.

(** X3. Apart from that case, [moveTask] depends on [from] only through
    the column it names: it is the move from that column. *)
Theorem moveTask_by_column (from : JSValue) (to c : ColumnId)
  (id_ : JSString) (index : option Z) (b : BoardState) :
  key_column from = Some c →
  c ≠ to ∨ from = JStr (ColumnId_name to) →
  moveTask_updater from to (JStr id_) index b = move c to id_ index b.
Proof.
  intros Hk Hc. unfold move.
  rewrite (moveTask_updater_eq _ _ _ _ _ _ (board_get_key b _ _ Hk)).
  rewrite (moveTask_updater_eq _ _ _ _ _ _
             (board_get_key b _ _ (key_column_name c))).
  assert (strict_eq_str from (ColumnId_name to)
          = strict_eq_str (JStr (ColumnId_name c)) (ColumnId_name to)) as ->.
  { rewrite strict_eq_name. destruct Hc as [Hne | ->].
    - rewrite bool_decide_eq_false_2 by done.
      destruct from; try done. simpl. apply bool_decide_eq_false.
      intros ->. rewrite key_column_name in Hk. congruence.
    - rewrite key_column_name in Hk. injection Hk as <-.
      rewrite bool_decide_eq_true_2 by done. simpl. by apply bool_decide_eq_true. }
  unfold board_set. by rewrite Hk, key_column_name.
Qed.

Lemma moveTask_by_column_witness :
  moveTask_updater (JArr [JStr (js "todo")]) Done (JStr (js "A")) None
    sample_board
  = move Todo Done (js "A") None sample_board.
Proof.
  apply (moveTask_by_column (JArr [JStr (js "todo")]) Done Todo (js "A") None
           sample_board).
  - reflexivity.
  - left. discriminate.
Defined.

(** ** More on [move] *)

Lemma move_all_tasks from to id_ index b :
  ∃ b', move from to id_ index b = Ok b' ∧ all_tasks b' ≡ₚ all_tasks b.
Proof.
  destruct (decide (id_ ∈ id <$> col from b)) as [Hin|Hout].
  - destruct (move_hit from to id_ index b Hin) as (i & t & Hl & _ & _ & Hm).
    exists (moved from to i t index b). split; [done|].
    by apply moved_all_tasks.
  - exists b. split; [by apply move_miss | done].
Qed.

(** X4. [move] keeps the tasks of the board: the tasks after are the
    tasks before, each as often as before, with its title and time. *)
Theorem move_keeps_tasks (b : BoardState) (from to : ColumnId)
  (id_ : JSString) (index : option Z) :
  ∃ b', move from to id_ index b = Ok b' ∧ all_tasks b' ≡ₚ all_tasks b.
Proof. apply move_all_tasks. Qed.

(** X5. A move within one column without an index, which is what a drop
    on the task's own column does, brings the task to the end of the
    column and keeps the order of the others. *)
Theorem move_same_column_to_end (b : BoardState) (c : ColumnId)
  (id_ : JSString) :
  id_ ∈ id <$> col c b →
  ∃ (i : nat) (t : Task),
    col c b !! i = Some t ∧ id t = id_
    ∧ move c c id_ None b = Ok (with_col c (delete i (col c b) ++ [t]) b).
Proof.
  intros Hin.
  destruct (move_hit c c id_ None b Hin) as (i & t & Hl & Hid & _ & Hm).
  exists i, t. split; [done|]. split; [done|]. rewrite Hm. f_equal.
  unfold moved. rewrite bool_decide_eq_true_2 by done. simpl.
  by rewrite insert_at_end, with_col_twice.
Qed.

Lemma move_same_column_to_end_witness :
  ∃ (i : nat) (t : Task),
    todo sample_board !! i = Some t
    ∧ move Todo Todo (js "A") None sample_board
      = Ok (with_col Todo (delete i (todo sample_board) ++ [t]) sample_board).
Proof.
  destruct (move_same_column_to_end sample_board Todo (js "A"))
    as (i & t & Hl & _ & Hm).
  - vm_compute. apply list_elem_of_here.
  - exists i, t. split; [exact Hl | exact Hm].
Defined.

(** X6. A move to another column is undone by the move back to the old
    position, when no task of the other column has the same id. *)
Theorem move_back_restores (b : BoardState) (from to : ColumnId)
  (id_ : JSString) (index : option Z) :
  from ≠ to →
  id_ ∈ id <$> col from b →
  id_ ∉ id <$> col to b →
  ∃ (i : nat) (t : Task) (b' : BoardState),
    col from b !! i = Some t ∧ id t = id_
    ∧ Forall (λ x, id x ≠ id_) (take i (col from b))
    ∧ move from to id_ index b = Ok b'
    ∧ move to from id_ (Some (Z.of_nat i)) b' = Ok b.
Proof.
  intros Hne Hin Hout.
  destruct (move_hit from to id_ index b Hin) as (i & t & Hl & Hid & Hf & Hm).
  exists i, t, (moved from to i t index b). do 4 (split; [done|]).
  pose proof (lookup_lt_Some _ _ _ Hl) as Hlt.
  set (b' := moved from to i t index b).
  set (k := clamp_index index (length (col to b))).
  assert (Hk : (k ≤ length (col to b))%nat)
    by (subst k; destruct index; simpl; lia).
  assert (Hto : col to b' = insert_at k t (col to b)).
  { subst b'. rewrite moved_target. cbv zeta.
    by rewrite bool_decide_eq_false_2. }
  assert (Hfrom : col from b' = delete i (col from b))
    by (subst b'; by apply moved_source).
  rewrite (move_at to from id_ (Some (Z.of_nat i)) b' k t).
  - f_equal. apply board_ext. intros c.
    destruct (decide (c = from)) as [->|Hcf].
    + rewrite moved_target. cbv zeta.
      rewrite bool_decide_eq_false_2 by done. rewrite Hfrom.
      replace (clamp_index (Some (Z.of_nat i)) (length (delete i (col from b))))
        with i by (rewrite length_delete by eauto; simpl; lia).
      by apply insert_at_delete.
    + destruct (decide (c = to)) as [->|Hct].
      * rewrite moved_source by done. rewrite Hto. by apply delete_insert_at.
      * rewrite moved_other by done. subst b'. by rewrite moved_other.
  - rewrite Hto. by apply insert_at_lookup.
  - done.
  - rewrite Hto. unfold insert_at.
    rewrite take_app_le by (rewrite length_take; lia).
    rewrite take_take, Nat.min_id.
    apply Forall_forall. intros x Hx E. apply Hout, list_elem_of_fmap.
    exists x. split; [done|].
    rewrite <- (take_drop k (col to b)). apply elem_of_app. by left.
Qed.

Lemma move_back_restores_witness :
  ∃ b' : BoardState,
    move Todo Done (js "B") None sample_board = Ok b'
    ∧ move Done Todo (js "B") (Some 1) b' = Ok sample_board.
Proof.
  destruct (move_back_restores sample_board Todo Done (js "B") None)
    as (i & t & b' & Hl & _ & Hf & Hm & Hb).
  - discriminate.
  - vm_compute. apply list_elem_of_further, list_elem_of_here.
  - apply (bool_decide_unpack _). vm_compute. exact I.
  - exists b'. split; [exact Hm|].
    vm_compute in Hm. injection Hm as <-. reflexivity.
Defined.

(** ** More on [remove] and [add] *)

(** X7. After [remove] no task of the named column has the id; the tasks
    of that column with another id stay, in their order; the other
    columns are not looked at, so a task with the id in another column
    stays; and a second [remove] changes nothing. *)
Theorem remove_clears_id (b : BoardState) (c : ColumnId) (id_ : JSString) :
  (id_ ∉ id <$> col c (remove c id_ b))
  ∧ (col c (remove c id_ b) `sublist_of` col c b)
  ∧ (∀ t, t ∈ col c b → id t ≠ id_ → t ∈ col c (remove c id_ b))
  ∧ (∀ c', c' ≠ c → col c' (remove c id_ b) = col c' b)
  ∧ remove c id_ (remove c id_ b) = remove c id_ b.
Proof.
  unfold remove, removeTask_updater. rewrite !col_with_col.
  split; [|split; [|split; [|split]]].
  - intros (t & Ht & Hin%list_elem_of_filter)%list_elem_of_fmap.
    by destruct Hin.
  - apply sublist_filter.
  - intros t Ht Hne. by apply list_elem_of_filter.
  - intros c' Hc. by rewrite col_with_col_ne.
  - rewrite with_col_twice. f_equal. apply filter_all.
    apply Forall_forall. by intros t [? _]%list_elem_of_filter.
Qed.

(** X8. [remove] of the id that [add] has just drawn gives back the board
    [add] was called on, when no task of the column had that id. *)
Theorem add_then_remove (b : BoardState) (uid : JSString) (now : Z)
  (c : ColumnId) (title_ : JSString) :
  uid ∉ id <$> col c b →
  remove c uid (add uid now c title_ b) = b.
Proof.
  intros H. destruct (decide (trim title_ = [])) as [E|E].
  - rewrite add_blank by done. by apply remove_absent.
  - rewrite add_nonblank by done.
    unfold remove, removeTask_updater, addTask_updater.
    rewrite col_with_col, with_col_twice, filter_cons. simpl.
    rewrite decide_False by (intros Hn; by apply Hn).
    rewrite filter_all; [apply with_col_col|].
    apply Forall_forall. intros t Ht Eq. apply H, list_elem_of_fmap. eauto.
Qed.

Lemma add_then_remove_witness :
  remove Done (js "q7f3k2m")
    (add (js "q7f3k2m") 1700000360000 Done (js "Call Ann") milk_board)
  = milk_board.
Proof.
  apply (add_then_remove milk_board (js "q7f3k2m") 1700000360000 Done
           (js "Call Ann")).
  apply (bool_decide_unpack _). vm_compute. exact I.
Defined.

(** ** Titles *)

Lemma trimStart_fix s : tidy_start s → trimStart s = s.
Proof. destruct s as [|c r]; [done|]. simpl. by intros ->. Qed.

Lemma trimStart_tidy s : tidy_start (trimStart s).
Proof.
  induction s as [|c r IH]; [done|]. simpl.
  by destruct (isWhiteSpace c) eqn:E.
Qed.

Lemma trimStart_suffix s : ∃ pre, s = pre ++ trimStart s.
Proof.
  induction s as [|c r [pre IH]]; [by exists []|]. simpl.
  destruct (isWhiteSpace c); [|by exists []].
  exists (c :: pre). simpl. by rewrite <- IH.
Qed.

Lemma trimEnd_prefix s : ∃ suf, s = trimEnd s ++ suf.
Proof.
  unfold trimEnd. destruct (trimStart_suffix (reverse s)) as [pre H].
  exists (reverse pre). rewrite <- reverse_app, <- H. by rewrite reverse_involutive.
Qed.

Lemma trimEnd_tidy_start s : tidy_start s → tidy_start (trimEnd s).
Proof.
  intros H. destruct (trimEnd_prefix s) as [suf E].
  destruct (trimEnd s) as [|c r]; [done|]. rewrite E in H. exact H.
Qed.

Lemma trimEnd_idem s : trimEnd (trimEnd s) = trimEnd s.
Proof.
  unfold trimEnd. rewrite reverse_involutive.
  by rewrite (trimStart_fix _ (trimStart_tidy _)).
Qed.

Lemma trim_idem s : trim (trim s) = trim s.
Proof.
  unfold trim.
  rewrite (trimStart_fix (trimEnd (trimStart s)))
    by apply trimEnd_tidy_start, trimStart_tidy.
  apply trimEnd_idem.
Qed.

Lemma tidy_titles_perm b b' :
  all_tasks b' ≡ₚ all_tasks b → tidy_titles b → tidy_titles b'.
Proof. unfold tidy_titles. by intros ->. Qed.

(** X9. Every title that [add] stores is the trimmed text, so it is not
    empty and [trim] has nothing left to strip; [remove] and [move] keep
    the titles: a board whose titles are all of that kind stays one under
    [add], [remove] and [move]. *)
Theorem tidy_titles_preserved (b : BoardState) :
  tidy_titles b →
  (∀ uid now c title_, tidy_titles (add uid now c title_ b))
  ∧ (∀ c id_, tidy_titles (remove c id_ b))
  ∧ (∀ from to id_ index,
       ∃ b', move from to id_ index b = Ok b' ∧ tidy_titles b').
Proof.
  intros Hb. split; [|split].
  - intros uid now c title_.
    destruct (decide (trim title_ = [])) as [E|E].
    + by rewrite add_blank.
    + rewrite add_nonblank by done.
      unfold tidy_titles. rewrite addTask_updater_all_tasks.
      apply Forall_cons. split; [|done]. simpl. split; [done | apply trim_idem].
  - intros c id_. unfold tidy_titles.
    unfold tidy_titles in *.
    rewrite Forall_forall in Hb. apply Forall_forall. intros t Ht. apply Hb.
    eapply elem_of_sublist; [exact Ht | apply remove_all_tasks].
  - intros from to id_ index.
    destruct (move_all_tasks from to id_ index b) as (b' & Hm & Hp).
    exists b'. split; [done|]. by eapply tidy_titles_perm.
Qed.

Lemma tidy_titles_preserved_witness :
  tidy_titles milk_board
  ∧ tidy_titles
      (add (js "x0a9b1c") 1700000360000 Todo (js "  Call Ann ") milk_board).
Proof.
  assert (H : tidy_titles milk_board).
  { repeat constructor. discriminate. }
  split; [exact H|].
  apply (tidy_titles_preserved milk_board H).
Defined.

(** ** More on the drop handler *)

Lemma findIndex_not_string (v : JSValue) (l : list Task) :
  (∀ s, v ≠ JStr s) → findIndex (λ t, strict_eq_str v (id t)) l = -1.
Proof.
  intros H. apply findIndex_miss, Forall_forall. intros t _.
  destruct v; try done. by destruct (H s).
Qed.

Lemma moveTask_named_column c to (v : JSValue) index b :
  ∃ b', moveTask_updater (JStr (ColumnId_name c)) to v index b = Ok b'
        ∧ all_tasks b' ≡ₚ all_tasks b.
Proof.
  destruct v as [| | | |s| |];
    try (exists b; split; [|done];
         apply (moveTask_updater_miss _ _ _ _ _ c (key_column_name c));
         by apply findIndex_not_string).
  apply move_all_tasks.
Qed.

(** X10. A drop whose payload names one of the three columns in [from]
    never throws, whatever [taskId] holds, and the board after it has the
    tasks it had before, in both variants. *)
Theorem drop_known_column_safe (JSON_parse : JSString → option JSValue)
  (text : JSString) (payload : JSValue) (c to : ColumnId) (b : BoardState)
  (sent : list Remote.StoreOp) :
  JSON_parse text = Some payload →
  opt_field (js "from") payload = JStr (ColumnId_name c) →
  ∃ b', Local.onDropColumn JSON_parse text to b = Ok b'
        ∧ (Remote.onDropColumn JSON_parse text to b sent).1 = Ok b'
        ∧ all_tasks b' ≡ₚ all_tasks b.
Proof.
  intros Hp Hf. rewrite drop_remote_board.
  unfold Local.onDropColumn, Local.moveTask. rewrite Hp, Hf.
  destruct (negb _ || negb _); [by exists b|].
  destruct (moveTask_named_column c to (opt_field (js "taskId") payload) None b)
    as (b' & -> & Hperm).
  by exists b'.
Qed.

Lemma drop_known_column_safe_witness :
  ∃ b', Local.onDropColumn parse_A (js "drag of A") Done sample_board = Ok b'
        ∧ all_tasks b' ≡ₚ all_tasks sample_board.
Proof.
  destruct (drop_known_column_safe parse_A (js "drag of A") drag_A_payload
              Todo Done sample_board [])
    as (b' & H & _ & Hperm); [reflexivity | reflexivity |].
  exists b'. split; [exact H | exact Hperm].
Defined.

(** X11. A drop is ignored when the text does not parse, when the parsed
    value is not an object, or when [taskId] or [from] is missing or
    falsy: the board is the same and the remote variant sends nothing. *)
Theorem drop_ignored (JSON_parse : JSString → option JSValue)
  (text : JSString) (to : ColumnId) (b : BoardState)
  (sent : list Remote.StoreOp) :
  JSON_parse text = None
  ∨ (∃ payload, JSON_parse text = Some payload
       ∧ ((∀ props, payload ≠ JObj props)
          ∨ truthy (opt_field (js "taskId") payload) = false
          ∨ truthy (opt_field (js "from") payload) = false)) →
  Local.onDropColumn JSON_parse text to b = Ok b
  ∧ Remote.onDropColumn JSON_parse text to b sent = (Ok b, sent).
Proof.
  unfold Local.onDropColumn, Remote.onDropColumn.
  intros [-> | (payload & -> & H)]; [done|].
  assert (negb (truthy (opt_field (js "taskId") payload))
          || negb (truthy (opt_field (js "from") payload)) = true) as ->; [|done].
  destruct H as [H | [-> | ->]]; [|done|by rewrite orb_true_r].
  destruct payload; try done. by destruct (H props).
Qed.

Lemma drop_ignored_witness :
  Local.onDropColumn (λ _, Some (JArr [JStr (js "A")])) (js "[A]") Done
    sample_board
  = Ok sample_board.
Proof.
  apply (drop_ignored (λ _, Some (JArr [JStr (js "A")])) (js "[A]") Done
           sample_board []).
  right. exists (JArr [JStr (js "A")]). split; [reflexivity|].
  left. discriminate.
Defined.

(** X12. What [onDragStart] writes is what [onDropColumn] reads: when
    [JSON.parse] gives back the object that [JSON.stringify] was given,
    the drop on column [to] of a drag of task [taskId] from column [from]
    is the move of that task to the end of [to]; a task whose id is the
    empty string cannot be moved this way, its drop is ignored. *)
Theorem drag_then_drop (JSON_stringify : JSValue → JSString)
  (JSON_parse : JSString → option JSValue) (taskId : JSString)
  (from to : ColumnId) (dt : Drag.DataTransfer) (b : BoardState) :
  (let payload := JObj [(js "taskId", JStr taskId);
                        (js "from", JStr (ColumnId_name from))] in
   JSON_parse (JSON_stringify payload) = Some payload) →
  Local.onDropColumn JSON_parse
    (Drag.text_plain (Drag.onDragStart JSON_stringify taskId from dt)) to b
  = if decide (taskId = []) then Ok b else move from to taskId None b.
Proof.
  cbv zeta. intros H. unfold Drag.onDragStart. cbn [Drag.text_plain].
  unfold Local.onDropColumn. rewrite H.
  assert (Hid : opt_field (js "taskId")
            (JObj [(js "taskId", JStr taskId);
                   (js "from", JStr (ColumnId_name from))]) = JStr taskId)
    by reflexivity.
  assert (Hfrom : opt_field (js "from")
            (JObj [(js "taskId", JStr taskId);
                   (js "from", JStr (ColumnId_name from))])
            = JStr (ColumnId_name from)) by reflexivity.
  rewrite Hid, Hfrom. simpl truthy.
  destruct (decide (taskId = [])) as [->|Hne]; [done|].
  rewrite (bool_decide_eq_false_2 (taskId = [])) by done.
  by destruct from.
Qed.

Lemma drag_then_drop_witness :
  Local.onDropColumn parse_A
    (Drag.text_plain
       (Drag.onDragStart stringify_A (js "A") Todo
          {| Drag.text_plain := []; Drag.effectAllowed := [] |}))
    Done sample_board
  = Ok {| todo := [sample_task "B"]; in_progress := [sample_task "C"];
          done := [sample_task "A"] |}.
Proof.
  rewrite (drag_then_drop stringify_A parse_A (js "A") Todo Done
             {| Drag.text_plain := []; Drag.effectAllowed := [] |} sample_board).
  - reflexivity.
  - reflexivity.
Defined.

(** ** More on the remote variant *)

Section RemoteMore.
Variable Date_parse : JSString → Timestamp.
Variable toISOString : Z → JSString.

Lemma fetchTasks_col rows board c :
  col c (Remote.fetchTasks Date_parse (Some rows) board)
  = Remote.row_task Date_parse <$> filter (λ r, Remote.status r = c) rows.
Proof. unfold Remote.fetchTasks. rewrite foldl_push_row. by destruct c. Qed.

Lemma rows_by_status (rows : list Remote.TaskRow) :
  filter (λ r, Remote.status r = Todo) rows
  ++ filter (λ r, Remote.status r = InProgress) rows
  ++ filter (λ r, Remote.status r = Done) rows
  ≡ₚ rows.
Proof.
  induction rows as [|r rows IH]; [done|].
  rewrite !filter_cons.
  destruct (Remote.status r) eqn:E; simpl;
    repeat (rewrite decide_True by done || rewrite decide_False by done);
    rewrite <- IH at 4; solve_Permutation.
Qed.

Lemma fetchTasks_all_tasks rows board :
  all_tasks (Remote.fetchTasks Date_parse (Some rows) board)
  ≡ₚ Remote.row_task Date_parse <$> rows.
Proof.
  unfold all_tasks.
  change (todo ?b) with (col Todo b).
  change (in_progress ?b) with (col InProgress b).
  change (done ?b) with (col Done b).
  rewrite !fetchTasks_col, <- !fmap_app. by rewrite rows_by_status.
Qed.
End RemoteMore.

(** X13. The board that [fetchTasks] builds holds one task for each row
    and nothing else: as many tasks as rows, and no id twice exactly when
    no two rows share an id. *)
Theorem fetchTasks_tasks (Date_parse : JSString → Timestamp)
  (rows : list Remote.TaskRow) (board : BoardState) :
  let b := Remote.fetchTasks Date_parse (Some rows) board in
  all_tasks b ≡ₚ Remote.row_task Date_parse <$> rows
  ∧ task_count b = length rows
  ∧ (unique_ids b ↔ NoDup (Remote.row_id <$> rows)).
Proof.
  cbv zeta. pose proof (fetchTasks_all_tasks Date_parse rows board) as Hp.
  split; [done|]. split.
  - by rewrite task_count_all_tasks, Hp, length_fmap.
  - unfold unique_ids. rewrite Hp, <- list_fmap_compose. done.
Qed.

(** X14. The board after [addTask] is the board a refetch gives once the
    row it sends is in the table as the most recent one, when [Date.parse]
    reads back the time that [toISOString] wrote. *)
Theorem add_agrees_with_refetch (Date_parse : JSString → Timestamp)
  (toISOString : Z → JSString) (uid : JSString) (now : Z) (c : ColumnId)
  (title_ : JSString) (rows : list Remote.TaskRow) (board : BoardState)
  (sent : list Remote.StoreOp) :
  trim title_ ≠ [] →
  Date_parse (toISOString now) = Ms now →
  ∃ row,
    Remote.addTask toISOString uid now c title_
      (Remote.fetchTasks Date_parse (Some rows) board) sent
    = (Remote.fetchTasks Date_parse (Some (row :: rows)) board,
       sent ++ [Remote.Insert row])
    ∧ Remote.row_id row = uid ∧ Remote.row_title row = trim title_
    ∧ Remote.status row = c.
Proof.
  intros Hne Hd.
  exists {| Remote.row_id := uid; Remote.row_title := trim title_;
            Remote.status := c; Remote.created_at := toISOString now |}.
  split; [|done].
  unfold Remote.addTask. simpl truthy.
  rewrite (bool_decide_eq_false_2 (trim title_ = [])) by done. simpl negb.
  cbv iota. f_equal. apply board_ext. intros c'.
  rewrite fetchTasks_col, filter_cons. unfold addTask_updater.
  cbn [Remote.status].
  destruct (decide (c = c')) as [<-|Hc].
  - rewrite col_with_col, fetchTasks_col, fmap_cons.
    f_equal. unfold Remote.row_task. simpl. by rewrite Hd.
  - rewrite col_with_col_ne by done. by rewrite fetchTasks_col.
Qed.

Lemma add_agrees_with_refetch_witness :
  ∃ row,
    Remote.addTask sample_toISOString (js "k2m9p4z") 1700000000000 Todo
      (js " Water plants ")
      (Remote.fetchTasks sample_Date_parse (Some sample_rows)
         Remote.initialData) []
    = (Remote.fetchTasks sample_Date_parse (Some (row :: sample_rows))
         Remote.initialData,
       [Remote.Insert row]).
Proof.
  destruct (add_agrees_with_refetch sample_Date_parse sample_toISOString
              (js "k2m9p4z") 1700000000000 Todo (js " Water plants ")
              sample_rows Remote.initialData [])
    as (row & H & _); [by vm_compute | reflexivity |].
  exists row. exact H.
Defined.

Lemma remove_fetched_col (Date_parse : JSString → Timestamp)
  (rows : list Remote.TaskRow) (c : ColumnId) (id_ : JSString) :
  filter (λ t, id t ≠ id_)
    (Remote.row_task Date_parse <$> filter (λ r, Remote.status r = c) rows)
  = Remote.row_task Date_parse
      <$> filter (λ r, Remote.status r = c)
            (filter (λ r, Remote.row_id r ≠ id_) rows).
Proof.
  induction rows as [|r rows IH]; [done|].
  rewrite (filter_cons (λ r, Remote.row_id r ≠ id_)).
  rewrite (filter_cons (λ r, Remote.status r = c)).
  destruct (decide (Remote.status r = c)) as [Hs|Hs];
    destruct (decide (Remote.row_id r ≠ id_)) as [Hid|Hid].
  - rewrite fmap_cons, !filter_cons. simpl.
    rewrite decide_True by done. rewrite decide_True by done.
    by rewrite fmap_cons, IH.
  - rewrite fmap_cons, filter_cons. simpl. by rewrite decide_False by done.
  - rewrite filter_cons. by rewrite decide_False by done.
  - done.
Qed.

Lemma other_column_rows (rows : list Remote.TaskRow) (c c' : ColumnId)
  (id_ : JSString) :
  (∀ r, r ∈ rows → Remote.row_id r = id_ → Remote.status r = c) →
  c' ≠ c →
  filter (λ r, Remote.status r = c') (filter (λ r, Remote.row_id r ≠ id_) rows)
  = filter (λ r, Remote.status r = c') rows.
Proof.
  intros H Hc. induction rows as [|r rows IH]; [done|].
  assert (IH' := IH (λ r' Hr', H r' (list_elem_of_further _ _ _ Hr'))).
  assert (Hr := H r (list_elem_of_here _ _)).
  rewrite (filter_cons (λ r, Remote.row_id r ≠ id_)).
  rewrite (filter_cons (λ r, Remote.status r = c') r rows).
  destruct (decide (Remote.row_id r ≠ id_)) as [Hid|Hid%dec_stable].
  - rewrite filter_cons. by rewrite IH'.
  - rewrite decide_False by (rewrite (Hr Hid); congruence). done.
Qed.

(** X15. The board after [removeTask] is the board a refetch gives once
    the rows with the id are gone from the table, when every row with
    that id is in the named column. *)
Theorem remove_agrees_with_refetch (Date_parse : JSString → Timestamp)
  (c : ColumnId) (id_ : JSString) (rows : list Remote.TaskRow)
  (board : BoardState) (sent : list Remote.StoreOp) :
  (∀ r, r ∈ rows → Remote.row_id r = id_ → Remote.status r = c) →
  Remote.removeTask c id_ (Remote.fetchTasks Date_parse (Some rows) board) sent
  = (Remote.fetchTasks Date_parse
       (Some (filter (λ r, Remote.row_id r ≠ id_) rows)) board,
     sent ++ [Remote.DeleteEqId id_]).
Proof.
  intros H. unfold Remote.removeTask. f_equal. apply board_ext. intros c'.
  rewrite fetchTasks_col. unfold removeTask_updater.
  destruct (decide (c' = c)) as [->|Hc].
  - rewrite col_with_col, fetchTasks_col. apply remove_fetched_col.
  - rewrite col_with_col_ne by done.
    by rewrite fetchTasks_col, (other_column_rows rows c c' id_ H Hc).
Qed.

Lemma remove_agrees_with_refetch_witness :
  Remote.removeTask Todo (js "q7f3k2m")
    (Remote.fetchTasks sample_Date_parse (Some sample_rows) Remote.initialData)
    []
  = (Remote.fetchTasks sample_Date_parse
       (Some (filter (λ r, Remote.row_id r ≠ js "q7f3k2m") sample_rows))
       Remote.initialData,
     [Remote.DeleteEqId (js "q7f3k2m")]).
Proof.
  apply (remove_agrees_with_refetch sample_Date_parse Todo (js "q7f3k2m")
           sample_rows Remote.initialData []).
  intros r Hr Hid. unfold sample_rows in Hr.
  apply elem_of_cons in Hr as [-> | Hr]; [reflexivity|].
  apply elem_of_cons in Hr as [-> | Hr]; [|by apply elem_of_nil in Hr].
  vm_compute in Hid. discriminate.
Defined.

(** X16. [moveTask] of the remote variant sends the status update for the
    id whether or not the board holds the task in [from]: with an id that
    is not in column [from] the board stays as it was and the update to
    [to] is sent all the same. *)
Theorem remote_moveTask_unknown_id (b : BoardState) (from to : ColumnId)
  (id_ : JSString) (index : option Z) (sent : list Remote.StoreOp) :
  id_ ∉ id <$> col from b →
  Remote.moveTask (JStr (ColumnId_name from)) to (JStr id_) index b sent
  = (Ok b, sent ++ [Remote.UpdateStatusEqId to (JStr id_)]).
Proof.
  intros H. unfold Remote.moveTask. f_equal. by apply move_miss.
Qed.

Lemma remote_moveTask_unknown_id_witness :
  Remote.moveTask (JStr (js "done")) Todo (JStr (js "C")) None sample_board []
  = (Ok sample_board, [Remote.UpdateStatusEqId Todo (JStr (js "C"))]).
Proof.
  apply (remote_moveTask_unknown_id sample_board Done Todo (js "C") None []).
  apply (bool_decide_unpack _). vm_compute. exact I.
Defined.

(** ** The board after a move and the refetched board *)

Lemma filter_none {A} (P : A → Prop) `{!∀ x, Decision (P x)} (l : list A) :
  Forall (λ x, ¬ P x) l → filter P l = [].
Proof.
  induction 1 as [|x l Hx _ IH]; [done|].
  by rewrite filter_cons, decide_False.
Qed.

Section MoveRefetch.
Variable Date_parse : JSString → Timestamp.
Variables (from to : ColumnId) (id_ : JSString).

Lemma set_status_same r : set_status (Remote.status r) r = r.
Proof. by destruct r. Qed.

Lemma row_task_set_status c r :
  Remote.row_task Date_parse (set_status c r) = Remote.row_task Date_parse r.
Proof. done. Qed.

Lemma update_same_column rows :
  (∀ r, r ∈ rows → Remote.row_id r = id_ → Remote.status r = to) →
  update_status_eq_id to id_ rows = rows.
Proof.
  intros H. unfold update_status_eq_id.
  induction rows as [|r rows IH]; [done|].
  rewrite fmap_cons, IH by (intros r' Hr'; apply H; by right).
  destruct (decide (Remote.row_id r = id_)) as [E|E]; [|done].
  by rewrite <- (H r (list_elem_of_here _ _) E), set_status_same.
Qed.

Lemma update_other_column rows c :
  (∀ r, r ∈ rows → Remote.row_id r = id_ → Remote.status r = from) →
  c ≠ from → c ≠ to →
  filter (λ r, Remote.status r = c) (update_status_eq_id to id_ rows)
  = filter (λ r, Remote.status r = c) rows.
Proof.
  intros H Hf Ht. unfold update_status_eq_id.
  induction rows as [|r rows IH]; [done|].
  rewrite fmap_cons, !filter_cons, IH by (intros r' Hr'; apply H; by right).
  destruct (decide (Remote.row_id r = id_)) as [E|E]; [|done].
  pose proof (H r (list_elem_of_here _ _) E) as Hs.
  rewrite decide_False by (simpl; congruence).
  by rewrite decide_False by congruence.
Qed.

Lemma update_source_column rows :
  from ≠ to →
  filter (λ r, Remote.status r = from) (update_status_eq_id to id_ rows)
  = filter (λ r, Remote.status r = from)
      (filter (λ r, Remote.row_id r ≠ id_) rows).
Proof.
  intros Hne. unfold update_status_eq_id.
  induction rows as [|r rows IH]; [done|].
  rewrite fmap_cons, filter_cons, IH.
  rewrite (filter_cons (λ r, Remote.row_id r ≠ id_)).
  destruct (decide (Remote.row_id r = id_)) as [E|E].
  - rewrite decide_False by (simpl; congruence).
    by rewrite decide_False by (intros Hn; by apply Hn).
  - rewrite (decide_True (P := Remote.row_id r ≠ id_)) by done.
    by rewrite filter_cons.
Qed.

Lemma update_target_column rows :
  (∀ r, r ∈ rows → Remote.row_id r = id_ → Remote.status r = from) →
  from ≠ to →
  Remote.row_task Date_parse
    <$> filter (λ r, Remote.status r = to) (update_status_eq_id to id_ rows)
  ≡ₚ (Remote.row_task Date_parse
        <$> filter (λ r, Remote.row_id r = id_) rows)
     ++ (Remote.row_task Date_parse
           <$> filter (λ r, Remote.status r = to) rows).
Proof.
  intros H Hne. unfold update_status_eq_id.
  induction rows as [|r rows IH]; [done|].
  rewrite fmap_cons, !filter_cons.
  specialize (IH (λ r' Hr', H r' (list_elem_of_further _ _ _ Hr'))).
  destruct (decide (Remote.row_id r = id_)) as [E|E].
  - pose proof (H r (list_elem_of_here _ _) E) as Hs.
    rewrite decide_True by done.
    rewrite (decide_False (P := Remote.status r = to)) by congruence.
    rewrite !fmap_cons, row_task_set_status, IH. done.
  - destruct (decide (Remote.status r = to)) as [Hs|Hs]; [|done].
    rewrite !fmap_cons, IH. by rewrite <- Permutation_middle.
Qed.

Lemma rows_with_id rows r :
  NoDup (Remote.row_id <$> rows) → r ∈ rows → Remote.row_id r = id_ →
  filter (λ r, Remote.row_id r = id_) rows = [r].
Proof.
  induction rows as [|r' rows IH]; intros Hnd Hr Hid; [by apply elem_of_nil in Hr|].
  rewrite fmap_cons in Hnd. apply NoDup_cons in Hnd as [Hnew Hnd].
  rewrite filter_cons. apply elem_of_cons in Hr as [<- | Hr].
  - rewrite decide_True by done. f_equal.
    apply filter_none, Forall_forall. intros x Hx E. apply Hnew.
    apply list_elem_of_fmap. exists x. split; [congruence | done].
  - rewrite decide_False; [by apply IH|].
    intros E. apply Hnew, list_elem_of_fmap. exists r. split; [congruence | done].
Qed.
End MoveRefetch.

Lemma delete_unique_id (l : list Task) (i : nat) (t : Task) :
  l !! i = Some t → NoDup (id <$> l) →
  delete i l = filter (λ x, id x ≠ id t) l.
Proof.
  revert i. induction l as [|x l IH]; intros i Hl Hnd; [done|].
  rewrite fmap_cons in Hnd. apply NoDup_cons in Hnd as [Hx Hnd].
  rewrite filter_cons. destruct i as [|j]; simpl in Hl.
  - injection Hl as ->. rewrite decide_False by (intros Hn; by apply Hn).
    simpl. symmetry. apply filter_all, Forall_forall. intros y Hy E.
    apply Hx, list_elem_of_fmap. by exists y.
  - rewrite decide_True.
    + simpl. f_equal. by apply IH.
    + intros E. apply Hx, list_elem_of_fmap. exists t.
      split; [done | by eapply list_elem_of_lookup_2].
Qed.

(** X17. When the rows have distinct ids and the board is the one fetched
    from them, the board after [moveTask] of a task of column [from] has,
    in every column, the tasks that a refetch gives once the status of
    the row is updated; only their order in the column can differ. *)
Theorem move_agrees_with_refetch (Date_parse : JSString → Timestamp)
  (from to : ColumnId) (id_ : JSString) (index : option Z)
  (rows : list Remote.TaskRow) (board : BoardState)
  (sent : list Remote.StoreOp) :
  NoDup (Remote.row_id <$> rows) →
  id_ ∈ id <$> col from (Remote.fetchTasks Date_parse (Some rows) board) →
  ∃ b',
    Remote.moveTask (JStr (ColumnId_name from)) to (JStr id_) index
      (Remote.fetchTasks Date_parse (Some rows) board) sent
    = (Ok b', sent ++ [Remote.UpdateStatusEqId to (JStr id_)])
    ∧ ∀ c, col c b'
           ≡ₚ col c (Remote.fetchTasks Date_parse
                       (Some (update_status_eq_id to id_ rows)) board).
Proof.
  intros Hnd Hin. set (b := Remote.fetchTasks Date_parse (Some rows) board).
  destruct (move_hit from to id_ index b Hin) as (i & t & Hl & Hid & _ & Hm).
  exists (moved from to i t index b). split.
  { unfold Remote.moveTask. f_equal. exact Hm. }
  assert (Hcol : col from b
     = Remote.row_task Date_parse <$> filter (λ r, Remote.status r = from) rows)
    by apply fetchTasks_col.
  assert (∃ r0, r0 ∈ rows ∧ Remote.status r0 = from
                ∧ t = Remote.row_task Date_parse r0) as (r0 & Hr0 & Hs0 & Ht).
  { pose proof (list_elem_of_lookup_2 _ _ _ Hl) as Ht. rewrite Hcol in Ht.
    apply list_elem_of_fmap in Ht as (r0 & -> & Hr0).
    apply list_elem_of_filter in Hr0 as [? ?]. by exists r0. }
  assert (Hid0 : Remote.row_id r0 = id_) by (by rewrite <- Hid, Ht).
  pose proof (rows_with_id id_ rows r0 Hnd Hr0 Hid0) as Hone.
  assert (Hs : ∀ r, r ∈ rows → Remote.row_id r = id_ → Remote.status r = from).
  { intros r Hr E.
    assert (r ∈ filter (λ r, Remote.row_id r = id_) rows) as Hf
      by (by apply list_elem_of_filter).
    rewrite Hone in Hf. apply list_elem_of_singleton in Hf. by subst. }
  intros c. rewrite fetchTasks_col.
  destruct (decide (from = to)) as [<-|Hne].
  - rewrite (update_same_column from id_ rows Hs).
    rewrite <- (fetchTasks_col Date_parse rows board). fold b. destruct (decide (c = from)) as [->|Hc].
    + rewrite moved_target. cbv zeta. rewrite bool_decide_eq_true_2 by done.
      rewrite insert_at_perm. symmetry. by apply delete_Permutation.
    + by rewrite moved_other.
  - destruct (decide (c = from)) as [->|Hcf]; [|destruct (decide (c = to)) as [->|Hct]].
    + rewrite moved_source by done.
      rewrite (update_source_column from to id_ rows Hne).
      rewrite <- remove_fetched_col, <- Hcol, <- Hid.
      rewrite <- (delete_unique_id _ i t Hl); [done|].
      rewrite Hcol, <- list_fmap_compose.
      eapply sublist_NoDup; [exact Hnd|]. apply fmap_sublist, sublist_filter.
    + rewrite moved_target. cbv zeta. rewrite bool_decide_eq_false_2 by done.
      rewrite insert_at_perm.
      rewrite (update_target_column Date_parse from to id_ rows Hs Hne).
      rewrite Hone. simpl. rewrite <- Ht. unfold b. by rewrite fetchTasks_col.
    + rewrite moved_other by done.
      rewrite (update_other_column from to id_ rows c Hs Hcf Hct).
      unfold b. by rewrite fetchTasks_col.
Qed.

Lemma move_agrees_with_refetch_witness :
  ∃ b',
    Remote.moveTask (JStr (js "todo")) Done (JStr (js "q7f3k2m")) None
      (Remote.fetchTasks sample_Date_parse (Some sample_rows)
         Remote.initialData) []
    = (Ok b', [Remote.UpdateStatusEqId Done (JStr (js "q7f3k2m"))])
    ∧ done b'
      ≡ₚ done (Remote.fetchTasks sample_Date_parse
                 (Some (update_status_eq_id Done (js "q7f3k2m") sample_rows))
                 Remote.initialData).
Proof.
  destruct (move_agrees_with_refetch sample_Date_parse Todo Done (js "q7f3k2m")
              None sample_rows Remote.initialData [])
    as (b' & Hm & Hc).
  - apply (bool_decide_unpack _). vm_compute. exact I.
  - vm_compute. apply list_elem_of_here.
  - exists b'. split; [exact Hm | exact (Hc Done)].
Defined.

(** ** Indexes out of range *)

(** X18. An index of zero or less puts the moved task first in the target
    list, an index of the length of the target list or more puts it
    last; no index is refused. *)
Theorem move_index_bounds (b : BoardState) (from to : ColumnId)
  (id_ : JSString) (n : Z) :
  id_ ∈ id <$> col from b →
  ∃ (i : nat) (t : Task) (b' : BoardState),
    move from to id_ (Some n) b = Ok b'
    ∧ col from b !! i = Some t ∧ id t = id_
    ∧ (let target :=
         if bool_decide (from = to) then delete i (col from b) else col to b in
       (n ≤ 0 → col to b' = t :: target)
       ∧ (Z.of_nat (length target) ≤ n → col to b' = target ++ [t])).
Proof.
  intros Hin.
  destruct (move_hit from to id_ (Some n) b Hin) as (i & t & Hl & Hid & _ & Hm).
  exists i, t, (moved from to i t (Some n) b).
  do 3 (split; [done|]). rewrite moved_target. cbv zeta.
  set (target := if bool_decide (from = to) then _ else _). split.
  - intros Hn. replace (clamp_index (Some n) (length target)) with 0%nat
      by (simpl; lia).
    unfold insert_at. by rewrite take_0, drop_0.
  - intros Hn. replace (clamp_index (Some n) (length target))
      with (length target) by (simpl; lia).
    apply insert_at_end.
Qed.

Lemma move_index_bounds_witness :
  ∃ b' : BoardState,
    move Todo InProgress (js "B") (Some (-7)) sample_board = Ok b'
    ∧ in_progress b' = [sample_task "B"; sample_task "C"].
Proof.
  destruct (move_index_bounds sample_board Todo InProgress (js "B") (-7))
    as (i & t & b' & Hm & _).
  - vm_compute. apply list_elem_of_further, list_elem_of_here.
  - exists b'. split; [exact Hm|].
    vm_compute in Hm. injection Hm as <-. reflexivity.
Defined.
